(** * TaxHelpAIBot: a shallow embedding of the document pipeline,
      the questionnaire and the tax calculator

    The development follows the Python sources file by file:
    - [Py]          the Python built-ins the code relies on (exceptions,
                    [str] methods, [round], [float]);
    - [Classifier]  classifier.py, [DocumentClassifier];
    - [Extractor]   extractor.py, [DataExtractor] and its regular expressions;
    - [QA]          qa.py, [AdaptiveQA];
    - [TaxEngine]   tax_engine.py, [TaxEngine].

    Conventions of the embedding.
    - A Python [str] is a Rocq [string] holding its UTF-8 bytes.  [len] counts
      code points; [lower] folds the ASCII letters only.
    - Amounts of money are Python floats in the source.  They are embedded as
      exact rationals [Q]: binary rounding error is not modelled, and equalities
      between amounts are stated with [==].
    - A Python dict whose iteration order matters is an association list; a
      dict used only through membership, lookup and item assignment is a
      [gmap].
    - A function that can raise returns a [Py.result]. *)

From Stdlib Require Import ZArith QArith Qround Qminmax Lqa.
From Stdlib Require Import String Ascii List Bool Lia.
From stdpp Require Import base option list gmap strings.

Local Open Scope string_scope.

(* ================================================================== *)
(** * Python built-ins *)
(* ================================================================== *)

Module Py.

(** The exceptions that the modelled code can raise. *)
Inductive exn : Set :=
| KeyError | TypeError | ValueError | OverflowError | AttributeError.

(** The outcome of a call: a value, or a raised exception. *)
Inductive result (A : Type) : Type :=
| Ok (a : A)
| Raise (e : exn).
Arguments Ok {A} a.
Arguments Raise {A} e.

#[global] Instance result_ret : MRet result := @Ok.
#[global] Instance result_bind : MBind result :=
  λ A B f m, match m with Ok a => f a | Raise e => Raise e end.

Definition returns {A} (m : result A) : Prop := ∃ a, m = Ok a.

(** ** [str] *)

Definition is_upper (c : ascii) : bool :=
  (Ascii.leb "A" c && Ascii.leb c "Z")%char.

Definition lower_char (c : ascii) : ascii :=
  if is_upper c then ascii_of_nat (nat_of_ascii c + 32) else c.

(** [s.lower()] *)
Fixpoint lower (s : string) : string :=
  match s with
  | EmptyString => EmptyString
  | String c s' => String (lower_char c) (lower s')
  end.

Definition is_lower (c : ascii) : bool :=
  (Ascii.leb "a" c && Ascii.leb c "z")%char.

Definition upper_char (c : ascii) : ascii :=
  if is_lower c then ascii_of_nat (nat_of_ascii c - 32) else c.

(** [s.upper()] *)
Fixpoint upper (s : string) : string :=
  match s with
  | EmptyString => EmptyString
  | String c s' => String (upper_char c) (upper s')
  end.

(** [s.replace(old, new)] for a one-character [old], the only form the
    sources use. *)
Fixpoint replace (old : ascii) (new : string) (s : string) : string :=
  match s with
  | EmptyString => EmptyString
  | String c s' =>
      if Ascii.eqb c old then new +:+ replace old new s'
      else String c (replace old new s')
  end.

(** [s.startswith(p)] *)
Definition startswith (s p : string) : bool := String.prefix p s.

(** [sub in s] *)
Fixpoint contains (sub s : string) : bool :=
  String.prefix sub s ||
  match s with
  | EmptyString => false
  | String _ s' => contains sub s'
  end.

(** A byte of the form 10xxxxxx continues a UTF-8 code point. *)
Definition is_continuation (c : ascii) : bool :=
  let n := nat_of_ascii c in (128 <=? n)%nat && (n <? 192)%nat.

(** [len(s)]: the number of code points. *)
Fixpoint len (s : string) : nat :=
  match s with
  | EmptyString => 0
  | String c s' => if is_continuation c then len s' else S (len s')
  end.

(** ** [dict] with insertion order *)

(** [d.get(k)] on an association list: the first binding of [k]. *)
Fixpoint assoc {A} (k : string) (d : list (string * A)) : option A :=
  match d with
  | [] => None
  | (k', v) :: d' => if String.eqb k' k then Some v else assoc k d'
  end.

(** ** [round] *)

(** Rounding to the nearest integer, ties to the even one. *)
Definition round_half_even (x : Q) : Z :=
  let f := Qfloor x in
  match (x - inject_Z f ?= 1 # 2)%Q with
  | Lt => f
  | Gt => (f + 1)%Z
  | Eq => if Z.even f then f else (f + 1)%Z
  end.

(** [round(x, 2)] *)
Definition round2 (x : Q) : Q := round_half_even (x * 100)%Q # 100.

(** ** [float] *)

(** A Python float as far as the questionnaire can tell floats apart. *)
Inductive float : Type :=
| Finite (q : Q)
| PosInf
| NegInf
| NaN.

(** [a <= b] and [a < b]; every comparison with [nan] is false. *)
Definition float_leb (a b : float) : bool :=
  match a, b with
  | NaN, _ | _, NaN => false
  | NegInf, _ | _, PosInf => true
  | Finite x, Finite y => Qle_bool x y
  | _, _ => false
  end.

Definition float_ltb (a b : float) : bool :=
  match a, b with
  | NaN, _ | _, NaN => false
  | PosInf, _ | _, NegInf => false
  | Finite x, Finite y => negb (Qle_bool y x)
  | _, _ => true
  end.

(** [int(x)]: truncation towards zero; [inf] and [nan] have no integer. *)
Definition int (x : float) : result Z :=
  match x with
  | Finite q => Ok (Z.quot (Qnum q) (Z.pos (Qden q)))
  | PosInf | NegInf => Raise OverflowError
  | NaN => Raise ValueError
  end.

(** [max(xs, key=key)]: the first element whose key is maximal;
    [ValueError] on an empty sequence. *)
Definition max_by {A} (key : A → nat) (xs : list A) : result A :=
  match xs with
  | [] => Raise ValueError
  | x :: rest =>
      Ok (fold_left (λ best y, if (key best <? key y)%nat then y else best)
            rest x)
  end.

End Py.

Import Py.

(* ================================================================== *)
(** * classifier.py *)
(* ================================================================== *)

Module Classifier.

(** [self.keywords], in declaration order. *)
Definition keywords : list (string * list string) :=
  [ ("w2",
      [ "w-2"; "wage and tax statement"; "wages, tips, other compensation";
        "federal income tax withheld"; "social security wages";
        "medicare wages";
        "box 1"; "box 2"; "box 3"; "box 4"; "box 5"; "box 6" ]);
    ("1099-misc",
      [ "1099-misc"; "miscellaneous income"; "rents"; "royalties";
        "other income"; "box 1"; "box 2"; "box 3"; "box 4" ]);
    ("1099-k",
      [ "1099-k"; "payment card"; "third party network";
        "merchant category code"; "number of payment transactions";
        "federal income tax withheld" ]);
    ("1099-nec",
      [ "1099-nec"; "nonemployee compensation"; "services you performed";
        "box 1"; "box 4"; "box 5" ]);
    ("1098",
      [ "1098"; "mortgage interest statement"; "mortgage interest received";
        "points paid"; "outstanding mortgage principal" ]);
    ("receipt",
      [ "receipt"; "invoice"; "paid"; "amount due"; "total"; "tax";
        "subtotal"; "payment received"; "thank you for your business" ]) ].

(** The inner loop of [classify_document]: one point per keyword of the
    list that occurs in the lower-cased text. *)
Definition count_matches (text_lower : string) (kws : list string) : nat :=
  fold_left
    (λ score keyword,
       if contains (lower keyword) text_lower then S score else score)
    kws 0%nat.

(** The [scores] dict, in insertion order. *)
Definition scores_of (text_lower : string) : list (string * nat) :=
  map (λ '(doc_type, kws), (doc_type, count_matches text_lower kws)) keywords.

Definition classify_document (text : string) : result string :=
  let text_lower := lower text in
  let scores := scores_of text_lower in
  (* max(scores, key=scores.get): a key carried with its score *)
  best_match ← max_by snd scores;
  if (best_match.2 =? 0)%nat then Ok "other" else Ok best_match.1.

Definition get_confidence_score (text doc_type : string) : Q :=
  match assoc doc_type keywords with
  | None => 0%Q
  | Some kws =>
      let text_lower := lower text in
      let matches :=
        length (filter (λ keyword, contains (lower keyword) text_lower = true) kws) in
      let total_keywords := length kws in
      if (0 <? total_keywords)%nat
      then (inject_Z (Z.of_nat matches) / inject_Z (Z.of_nat total_keywords))%Q
      else 0%Q
  end.

End Classifier.

(* ================================================================== *)
(** * extractor.py *)
(* ================================================================== *)

Module Extractor.

(** ** The fragment of [re] used by [self.patterns]

    Matching is by backtracking with the priorities of Python's engine:
    the left branch of an alternative first, repetitions greedy.  [\d] and
    [\w] are the ASCII classes. *)

Inductive regex : Set :=
| Chr (c : ascii)                             (* a literal character *)
| Digit                                       (* \d *)
| Boundary                                    (* \b *)
| Seq (r1 r2 : regex)                         (* r1 r2 *)
| Alt (r1 r2 : regex)                         (* r1|r2 *)
| Rep (r : regex) (lo : nat) (hi : option nat). (* r{lo,hi}; [None] is no bound *)

Declare Scope regex_scope.
Delimit Scope regex_scope with re.
Bind Scope regex_scope with regex.
Infix "⋅" := Seq (at level 40, left associativity) : regex_scope.

(** [r{n}] *)
Definition exactly (n : nat) (r : regex) : regex := Rep r n (Some n).

Definition is_digit (c : ascii) : bool :=
  (Ascii.leb "0" c && Ascii.leb c "9")%char.

Definition is_word (c : ascii) : bool :=
  is_digit c
  || (Ascii.leb "a" c && Ascii.leb c "z")%char
  || (Ascii.leb "A" c && Ascii.leb c "Z")%char
  || Ascii.eqb c "_".

(** A position in the subject: the character just before it, if any, and
    what is left to read. *)
Record cursor : Set := Cursor { before : option ascii; rest : string }.

Definition next_char (c : cursor) : option ascii :=
  match rest c with EmptyString => None | String a _ => Some a end.

Definition word_at (o : option ascii) : bool :=
  match o with Some a => is_word a | None => false end.

(** Reads one character satisfying [p]. *)
Definition read {X} (p : ascii → bool) (k : cursor → option X) (c : cursor)
  : option X :=
  match rest c with
  | String a s => if p a then k (Cursor (Some a) s) else None
  | EmptyString => None
  end.

(** [rmatch r k c]: match [r] at [c], then go on with [k]; the first
    success in backtracking order. *)
Fixpoint rmatch {X} (r : regex) (k : cursor → option X) (c : cursor)
  : option X :=
  match r with
  | Chr a => read (Ascii.eqb a) k c
  | Digit => read is_digit k c
  | Boundary =>
      if xorb (word_at (before c)) (word_at (next_char c)) then k c else None
  | Seq r1 r2 => rmatch r1 (rmatch r2 k) c
  | Alt r1 r2 =>
      match rmatch r1 k c with
      | Some x => Some x
      | None => rmatch r2 k c
      end
  | Rep r lo hi =>
      (* [left]: iterations still permitted; [done]: iterations made *)
      (fix iterate (left done : nat) (c : cursor) {struct left} : option X :=
         let more :=
           match left with
           | O => None
           | S left' => rmatch r (iterate left' (S done)) c
           end in
         match more with
         | Some x => Some x
         | None => if (lo <=? done)%nat then k c else None
         end)
        (match hi with Some h => h | None => String.length (rest c) end)
        O c
  end.

(** The text read between two cursors of the same subject. *)
Definition between (c1 c2 : cursor) : string :=
  substring 0 (String.length (rest c1) - String.length (rest c2)) (rest c1).

(** [re.search(r, text)] with [.group(0)] taken of the match. *)
Fixpoint search_from (r : regex) (prev : option ascii) (s : string)
  : option string :=
  let c := Cursor prev s in
  match rmatch r Some c with
  | Some c' => Some (between c c')
  | None =>
      match s with
      | EmptyString => None
      | String a s' => search_from r (Some a) s'
      end
  end.

Definition search (r : regex) (text : string) : option string :=
  search_from r None text.

(** [re.findall(pre (grp), text)] for a pattern with one group [grp] after
    [pre]: the texts of the group, for the successive non-overlapping
    matches.  [skip] counts the characters still covered by the last
    match. *)
Fixpoint findall_from (pre grp : regex) (prev : option ascii) (s : string)
    (skip : nat) : list string :=
  match skip with
  | S n =>
      match s with
      | EmptyString => []
      | String a s' => findall_from pre grp (Some a) s' n
      end
  | O =>
      let c := Cursor prev s in
      match rmatch pre (λ c1, rmatch grp (λ c2, Some (c1, c2)) c1) c with
      | Some (c1, c2) =>
          between c1 c2 ::
          match s with
          | EmptyString => []
          | String a s' =>
              findall_from pre grp (Some a) s'
                (String.length s - String.length (rest c2) - 1)
          end
      | None =>
          match s with
          | EmptyString => []
          | String a s' => findall_from pre grp (Some a) s' O
          end
      end
  end.

Definition findall (pre grp : regex) (text : string) : list string :=
  findall_from pre grp None text O.

(** ** [self.patterns] *)

Local Open Scope regex_scope.

(** [\b\d{3}-\d{2}-\d{4}\b] *)
Definition ssn_pattern : regex :=
  Boundary ⋅ exactly 3 Digit ⋅ Chr "-" ⋅ exactly 2 Digit ⋅ Chr "-"
  ⋅ exactly 4 Digit ⋅ Boundary.

(** [\b\d{2}-\d{7}\b] *)
Definition ein_pattern : regex :=
  Boundary ⋅ exactly 2 Digit ⋅ Chr "-" ⋅ exactly 7 Digit ⋅ Boundary.

(** [\$?(\d{1,3}(?:,\d{3})*\.\d{2}|\d+\.\d{2})], as what precedes the
    group and the group. *)
Definition currency_prefix : regex := Rep (Chr "$") 0 (Some 1%nat).

Definition currency_group : regex :=
  Alt (Rep Digit 1 (Some 3%nat) ⋅ Rep (Chr "," ⋅ exactly 3 Digit) 0 None
         ⋅ Chr "." ⋅ exactly 2 Digit)
      (Rep Digit 1 None ⋅ Chr "." ⋅ exactly 2 Digit).

(** [\b(\d{1,2}/\d{1,2}/\d{4}|\d{4}-\d{1,2}-\d{1,2})\b] *)
Definition date_pattern : regex :=
  Boundary
  ⋅ Alt (Rep Digit 1 (Some 2%nat) ⋅ Chr "/" ⋅ Rep Digit 1 (Some 2%nat)
           ⋅ Chr "/" ⋅ exactly 4 Digit)
        (exactly 4 Digit ⋅ Chr "-" ⋅ Rep Digit 1 (Some 2%nat)
           ⋅ Chr "-" ⋅ Rep Digit 1 (Some 2%nat))
  ⋅ Boundary.

Local Close Scope regex_scope.

(** ** Values of an extraction record *)

Inductive value : Set :=
| VNone                 (* None *)
| VStr (s : string)
| VNum (q : Q).

(** [x if x else None] read back as a dict value. *)
Definition of_optional (o : option string) : value :=
  match o with Some s => VStr s | None => VNone end.

(** ** [float] on the cleaned currency matches

    Every string reaching [float] here is made of digits, one point and
    digits; on such a literal [float] is its decimal value.  Any other
    shape is a [ValueError] ([None]). *)

Definition digit_value (c : ascii) : Z := Z.of_nat (nat_of_ascii c - 48).

Fixpoint digits_value (s : string) (acc : Z) : option Z :=
  match s with
  | EmptyString => Some acc
  | String a s' =>
      if is_digit a then digits_value s' (10 * acc + digit_value a)%Z
      else None
  end.

Fixpoint split_point (s : string) : option (string * string) :=
  match s with
  | EmptyString => None
  | String a s' =>
      if Ascii.eqb a "." then Some (EmptyString, s')
      else '(i, f) ← split_point s'; Some (String a i, f)
  end.

Definition float_of_decimal (s : string) : option Q :=
  '(i, f) ← split_point s;
  if (0 <? String.length i + String.length f)%nat then
    n ← digits_value (i +:+ f) 0;
    Some (n # Z.to_pos (10 ^ Z.of_nat (String.length f)))
  else None.

(** ** [DataExtractor] *)

Definition extract_ssn (text : string) : option string :=
  search ssn_pattern text.

Definition extract_ein (text : string) : option string :=
  search ein_pattern text.

Definition extract_currency_values (text : string) : list Q :=
  let matches := findall currency_prefix currency_group text in
  fold_left
    (λ values m,
       let clean_value := replace "$" EmptyString (replace "," EmptyString m) in
       match float_of_decimal clean_value with
       | Some v => (values ++ [v])%list
       | None => values            (* except ValueError: continue *)
       end)
    matches [].

Definition box_mappings : list (nat * string) :=
  [ (1, "wages_tips_other_comp");
    (2, "federal_income_tax_withheld");
    (3, "social_security_wages");
    (4, "social_security_tax_withheld");
    (5, "medicare_wages");
    (6, "medicare_tax_withheld") ]%nat.

Fixpoint box_name (box_num : nat) (m : list (nat * string)) : option string :=
  match m with
  | [] => None
  | (n, name) :: m' => if (n =? box_num)%nat then Some name else box_name box_num m'
  end.

Definition extract_w2_data (text : string) : gmap string value :=
  let data : gmap string value := ∅ in
  let data := <["ssn" := of_optional (extract_ssn text)]> data in
  let currency_values := extract_currency_values text in
  fold_left
    (λ (data : gmap string value) '(i, v),
       let box_num := (i + 1)%nat in
       match box_name box_num box_mappings with
       | Some name => <[name := VNum v]> data
       | None => data
       end)
    (imap (λ i v, (i, v)) (take 6 currency_values))
    data.

Definition extract_1099_data (text : string) : gmap string value :=
  let data : gmap string value := ∅ in
  let data := <["ssn" := of_optional (extract_ssn text)]> data in
  let data := <["ein" := of_optional (extract_ein text)]> data in
  let currency_values := extract_currency_values text in
  let data :=
    match currency_values !! 0%nat with
    | Some v => <["nonemployee_compensation" := VNum v]> data
    | None => data
    end in
  let data :=
    match currency_values !! 1%nat with
    | Some v => <["federal_income_tax_withheld" := VNum v]> data
    | None => data
    end in
  data.

(** [max(values)] of a non-empty list: the first of the largest. *)
Definition max_of (v : Q) (vs : list Q) : Q :=
  fold_left (λ best x, if Qle_bool x best then best else x) vs v.

Definition extract_receipt_data (text : string) : gmap string value :=
  let data : gmap string value := ∅ in
  let currency_values := extract_currency_values text in
  let data :=
    match currency_values with
    | v :: vs => <["total_amount" := VNum (max_of v vs)]> data
    | [] => data
    end in
  let data :=
    match search date_pattern text with
    | Some d => <["date" := VStr d]> data
    | None => data
    end in
  data.

Definition extract_data (text doc_type : string) : gmap string value :=
  if String.eqb doc_type "w2" then extract_w2_data text
  else if startswith doc_type "1099" then extract_1099_data text
  else if String.eqb doc_type "receipt" then extract_receipt_data text
  else ∅.

End Extractor.

Import Classifier.
Import Extractor.

(* ================================================================== *)
(** * qa.py *)
(* ================================================================== *)

Module QA.

(** The values [process_answer] stores in [user_data]. *)
Inductive answer_value : Type :=
| AInt (z : Z)
| AFloat (x : float)
| AStr (s : string).

(** [v == s] for a string literal [s]. *)
Definition eq_str (v : option answer_value) (s : string) : bool :=
  match v with
  | Some (AStr s') => String.eqb s' s
  | _ => false
  end.

(** [k in d] *)
Definition has {A} (k : string) (d : gmap string A) : bool :=
  match d !! k with Some _ => true | None => false end.

(** [d[k]] *)
Definition getitem {A} (k : string) (d : list (string * A)) : result A :=
  match assoc k d with
  | Some v => Ok v
  | None => Raise KeyError
  end.

(** [self.questions] *)
Definition questions : list (string * list (string * string)) :=
  [ ("en",
      [ ("filing_status", "What's your filing status?");
        ("dependents", "How many dependents do you have?");
        ("zip_code", "What's your ZIP code?");
        ("gig_method",
          "For gig work, do you use standard mileage rate or actual expenses?");
        ("miles", "How many business miles did you drive this year?");
        ("phone_percent",
          "What percentage of your phone bill is for business use?");
        ("home_office",
          "Do you have a home office? If yes, what's the square footage?");
        ("state_specific", "Do you have any state-specific tax situations?") ]);
    ("es",
      [ ("filing_status", "¿Cuál es tu estado civil para impuestos?");
        ("dependents", "¿Cuántos dependientes tienes?");
        ("zip_code", "¿Cuál es tu código postal?");
        ("gig_method",
          "Para trabajo independiente, ¿usas tarifa de millaje estándar o gastos reales?");
        ("miles", "¿Cuántas millas de negocio condujiste este año?");
        ("phone_percent",
          "¿Qué porcentaje de tu factura de teléfono es para uso comercial?");
        ("home_office",
          "¿Tienes una oficina en casa? Si es sí, ¿cuál es el área en pies cuadrados?");
        ("state_specific",
          "¿Tienes alguna situación fiscal específica del estado?") ]) ].

(** [self.options] *)
Definition options : list (string * list (string * list string)) :=
  [ ("en",
      [ ("filing_status",
          [ "Single"; "Married Filing Jointly"; "Married Filing Separately";
            "Head of Household"; "Qualifying Widow(er)" ]);
        ("gig_method", [ "Standard Mileage Rate"; "Actual Expenses" ]) ]);
    ("es",
      [ ("filing_status",
          [ "Soltero"; "Casado Presentando Conjuntamente";
            "Casado Presentando Separadamente"; "Cabeza de Hogar";
            "Viudo Calificado" ]);
        ("gig_method", [ "Tarifa de Millaje Estándar"; "Gastos Reales" ]) ]) ].

(** The dict a question is returned as; ['options'] is bound for the
    choice questions only. *)
Record Question : Type := mkQuestion {
  key : string;
  question : string;
  type : string;
  choices : option (list string)      (* 'options' *)
}.

(** [self.questions[language][k]] and [self.options[language][k]] *)
Definition prompt (language k : string) : result string :=
  getitem language questions ≫= getitem k.

Definition options_for (language k : string) : result (list string) :=
  getitem language options ≫= getitem k.

Definition choice_question (language k : string) : result (option Question) :=
  q ← prompt language k;
  o ← options_for language k;
  Ok (Some (mkQuestion k q "choice" (Some o))).

Definition plain_question (language k question_key ty : string)
  : result (option Question) :=
  q ← prompt language question_key;
  Ok (Some (mkQuestion k q ty None)).

(** [any('1099' in doc_type.lower() for doc_type in doc_types)] *)
Definition any_1099 (doc_types : list string) : bool :=
  existsb (λ doc_type, contains "1099" (lower doc_type)) doc_types.

Definition expense_questions : list (string * string) :=
  [ ("phone_percent", "phone_percent"); ("home_office_sqft", "home_office") ].

(** The loop over [expense_questions]: the first key that is not in
    [user_data] is asked; [Ok None] when the loop runs to its end. *)
Fixpoint ask_expenses (qs : list (string * string))
    (user_data : gmap string answer_value) (language : string)
  : result (option Question) :=
  match qs with
  | [] => Ok None
  | (k, question_key) :: qs' =>
      if negb (has k user_data) then
        plain_question language k question_key
          (if contains "percent" k then "number" else "text")
      else ask_expenses qs' user_data language
  end.

(** The block guarded by the presence of a 1099 document; [Ok None] when
    control falls out of it. *)
Definition gig_questions (user_data : gmap string answer_value)
    (language : string) : result (option Question) :=
  if negb (has "gig_method" user_data) then
    choice_question language "gig_method"
  else if eq_str (user_data !! "gig_method") "Standard Mileage Rate" then
    if negb (has "miles" user_data) then
      plain_question language "miles" "miles" "number"
    else Ok None
  else if eq_str (user_data !! "gig_method") "Actual Expenses" then
    ask_expenses expense_questions user_data language
  else Ok None.

(** [user_data.get('zip_code', '').startswith(('9', '8'))]; a value that
    is not a string has no [startswith]. *)
Definition zip_starts_9_or_8 (user_data : gmap string answer_value)
  : result bool :=
  match user_data !! "zip_code" with
  | None => Ok (startswith EmptyString "9" || startswith EmptyString "8")
  | Some (AStr z) => Ok (startswith z "9" || startswith z "8")
  | Some _ => Raise AttributeError
  end.

Definition get_next_question (user_data : gmap string answer_value)
    (doc_types : list string) (language : string)
  : result (option Question) :=
  if negb (has "filing_status" user_data) then
    choice_question language "filing_status"
  else if negb (has "dependents" user_data) then
    plain_question language "dependents" "dependents" "number"
  else if negb (has "zip_code" user_data) then
    plain_question language "zip_code" "zip_code" "text"
  else
    gig ← (if any_1099 doc_types then gig_questions user_data language
           else Ok None);
    match gig with
    | Some q => Ok (Some q)
    | None =>
        ca ← zip_starts_9_or_8 user_data;
        if ca && negb (has "state_specific" user_data) then
          plain_question language "state_specific" "state_specific" "yes_no"
        else Ok None
    end.

Definition numeric_keys : list string :=
  [ "dependents"; "miles"; "phone_percent"; "home_office_sqft" ].

Definition valid_options : list string :=
  [ "single"; "married_filing_jointly"; "married_filing_separately";
    "head_of_household"; "qualifying_widow" ].

(** [x in xs] for a list of strings *)
Definition mem (x : string) (xs : list string) : bool :=
  existsb (String.eqb x) xs.

Section WithFloat.

(** The built-in [float] on strings; [None] is its [ValueError]. *)
Variable float_of_str : string → option float.

Definition validate_answer (question_key answer : string) : bool * string :=
  if String.eqb question_key "zip_code" then
    ((5 <=? len (replace "-" EmptyString answer))%nat, "Please enter a valid ZIP code")
  else if mem question_key numeric_keys then
    match float_of_str answer with
    | Some val =>
        if String.eqb question_key "phone_percent"
           && negb (float_leb (Finite 0) val && float_leb val (Finite 100))
        then (false, "Percentage must be between 0 and 100")
        else if float_ltb val (Finite 0)
        then (false, "Value cannot be negative")
        else (true, EmptyString)
    | None => (false, "Please enter a valid number")
    end
  else if String.eqb question_key "filing_status" then
    (mem (replace " " "_" (lower answer)) valid_options,
     "Please select a valid filing status")
  else (true, EmptyString).

(** [float(answer)] outside of a [try]. *)
Definition float_or_raise (answer : string) : result float :=
  match float_of_str answer with
  | Some x => Ok x
  | None => Raise ValueError
  end.

Definition process_answer (question_key answer : string)
    (user_data : gmap string answer_value)
  : result (gmap string answer_value) :=
  if String.eqb question_key "dependents" then
    x ← float_or_raise answer;
    n ← int x;
    Ok (<[question_key := AInt n]> user_data)
  else if mem question_key [ "miles"; "phone_percent"; "home_office_sqft" ] then
    x ← float_or_raise answer;
    Ok (<[question_key := AFloat x]> user_data)
  else if String.eqb question_key "filing_status" then
    let normalized := replace " " "_" (lower answer) in
    Ok (<[question_key := AStr normalized]> user_data)
  else
    Ok (<[question_key := AStr answer]> user_data).

(** An answer that [validate_answer] accepts and [process_answer]
    stores. *)
Definition accepted (question_key answer : string) : bool :=
  (validate_answer question_key answer).1
  && match process_answer question_key answer ∅ with
     | Ok _ => true
     | Raise _ => false
     end.

(** The question loop of the bot ([ask_next_question] and
    [handle_answer] on text messages): ask, validate, store, ask again.
    [answer k] is what the user replies to the question [k].  The trace
    lists what [get_next_question] returned at each turn: [Some k] for
    a question, [None] for the end of the questions. *)
Fixpoint interview (turns : nat) (answer : string → string)
    (doc_types : list string) (language : string)
    (user_data : gmap string answer_value)
  : result (list (option string)) :=
  match turns with
  | O => Ok []
  | S turns' =>
      next ← get_next_question user_data doc_types language;
      match next with
      | None => Ok [None]
      | Some q =>
          let a := answer (key q) in
          user_data' ←
            (if (validate_answer (key q) a).1
             then process_answer (key q) a user_data
             else Ok user_data);
          trace ← interview turns' answer doc_types language user_data';
          Ok (Some (key q) :: trace)
      end
  end.

End WithFloat.

End QA.

Import QA.

(* ================================================================== *)
(** * tax_engine.py *)
(* ================================================================== *)

Module TaxEngine.

Local Open Scope Q_scope.

(** The upper end of a bracket: a number or [float('inf')]. *)
Inductive bound : Set :=
| Fin (q : Q)
| Inf.

Definition bracket : Set := Q * bound * Q.

(** [self.federal_brackets] *)
Definition single_brackets : list bracket :=
  [ (0, Fin 11000, 0.10);
    (11000, Fin 44725, 0.12);
    (44725, Fin 95375, 0.22);
    (95375, Fin 182100, 0.24);
    (182100, Fin 231250, 0.32);
    (231250, Fin 578125, 0.35);
    (578125, Inf, 0.37) ].

Definition married_filing_jointly_brackets : list bracket :=
  [ (0, Fin 22000, 0.10);
    (22000, Fin 89450, 0.12);
    (89450, Fin 190750, 0.22);
    (190750, Fin 364200, 0.24);
    (364200, Fin 462500, 0.32);
    (462500, Fin 693750, 0.35);
    (693750, Inf, 0.37) ].

Definition federal_brackets : list (string * list bracket) :=
  [ ("single", single_brackets);
    ("married_filing_jointly", married_filing_jointly_brackets) ].

(** [self.standard_deduction] *)
Definition standard_deduction : list (string * Q) :=
  [ ("single", 13850); ("married_filing_jointly", 27700) ].

(** [d.get(k, default)] of a dict with string keys, for a key that is any
    stored answer. *)
Definition get_or {A} (d : list (string * A)) (k : answer_value) (default : A)
  : A :=
  match k with
  | AStr s => match assoc s d with Some v => v | None => default end
  | _ => default
  end.

(** [min(x - lo, hi - lo)] where [hi] may be infinite. *)
Definition min_width (x lo : Q) (hi : bound) : Q :=
  match hi with
  | Fin h => Qmin (x - lo) (h - lo)
  | Inf => x - lo
  end.

(** The loop of [_calculate_progressive_tax], with its [break]. *)
Fixpoint bracket_loop (brackets : list bracket) (taxable_income tax_owed : Q)
  : Q :=
  match brackets with
  | [] => tax_owed
  | (min_income, max_income, rate) :: brackets' =>
      if Qlt_le_dec min_income taxable_income then
        let taxable_in_bracket := min_width taxable_income min_income max_income in
        bracket_loop brackets' taxable_income (tax_owed + taxable_in_bracket * rate)
      else tax_owed
  end.

Definition _calculate_progressive_tax (taxable_income : Q)
    (filing_status : answer_value) : Q :=
  let brackets := get_or federal_brackets filing_status single_brackets in
  round2 (bracket_loop brackets taxable_income 0).

(** One entry of [extracted_data]: the bot stores ['data'], ['validation']
    and ['confidence']; the engine reads ['data'] only, when it is there. *)
Record doc_data : Type := mkDoc { data : option (gmap string value) }.

Record tax_input : Type := mkInput {
  extracted_data : option (list (string * doc_data));
  user_answers : option (gmap string answer_value)
}.

(** [total += d.get(k, 0)]: adding anything but a number is a
    [TypeError]. *)
Definition add_field (total : Q) (k : string) (d : gmap string value)
  : result Q :=
  match d !! k with
  | None => Ok (total + 0)
  | Some (VNum q) => Ok (total + q)
  | Some _ => Raise TypeError
  end.

(** The loop over the W-2 records of [calculate_federal_tax]. *)
Fixpoint w2_totals (docs : list (string * doc_data))
    (total_wages total_withheld : Q) : result (Q * Q) :=
  match docs with
  | [] => Ok (total_wages, total_withheld)
  | (doc_type, doc) :: docs' =>
      match String.eqb doc_type "w2", data doc with
      | true, Some d =>
          total_wages' ← add_field total_wages "wages_tips_other_comp" d;
          total_withheld' ←
            add_field total_withheld "federal_income_tax_withheld" d;
          w2_totals docs' total_wages' total_withheld'
      | _, _ => w2_totals docs' total_wages total_withheld
      end
  end.

Record federal_result : Type := mkFederal {
  taxable_income : Q;
  tax_owed : Q;
  withheld : Q;
  refund : Q;
  amount_due : Q
}.

Definition calculate_federal_tax (input : tax_input) : result federal_result :=
  let extracted_data := default [] (extracted_data input) in
  let user_answers := default ∅ (user_answers input) in
  let filing_status := default (AStr "single") (user_answers !! "filing_status") in
  '(total_wages, total_withheld) ← w2_totals extracted_data 0 0;
  let taxable_income :=
    Qmax 0 (total_wages - get_or standard_deduction filing_status 0) in
  let tax_owed := _calculate_progressive_tax taxable_income filing_status in
  let '(refund, amount_due) :=
    if Qlt_le_dec tax_owed total_withheld
    then (total_withheld - tax_owed, 0)
    else (0, tax_owed - total_withheld) in
  Ok (mkFederal taxable_income tax_owed total_withheld
        (round2 refund) (round2 amount_due)).

(** The loop over the 1099 records of [calculate_self_employment_tax]. *)
Fixpoint total_1099 (docs : list (string * doc_data)) (total : Q) : result Q :=
  match docs with
  | [] => Ok total
  | (doc_type, doc) :: docs' =>
      match startswith doc_type "1099", data doc with
      | true, Some d =>
          total' ← add_field total "nonemployee_compensation" d;
          total_1099 docs' total'
      | _, _ => total_1099 docs' total
      end
  end.

(** The dict returned by [calculate_self_employment_tax]; the zero case
    has no ['additional_medicare_tax']. *)
Record se_result : Type := mkSE {
  total_income : Q;
  social_security_tax : Q;
  medicare_tax : Q;
  additional_medicare_tax : option Q;
  total_tax : Q
}.

Definition calculate_self_employment_tax (input : tax_input) : result se_result :=
  let extracted_data := default [] (extracted_data input) in
  total_1099_income ← total_1099 extracted_data 0;
  if Qeq_bool total_1099_income 0 then
    Ok (mkSE 0 0 0 None 0)
  else
    let social_security_base := Qmin (total_1099_income * 0.9235) 160200 in
    let social_security_tax := social_security_base * 0.124 in
    let medicare_tax := total_1099_income * 0.029 in
    let additional_medicare_tax :=
      if Qlt_le_dec 200000 total_1099_income
      then (total_1099_income - 200000) * 0.009
      else 0 in
    let total_tax := social_security_tax + medicare_tax + additional_medicare_tax in
    Ok (mkSE (round2 total_1099_income) (round2 social_security_tax)
          (round2 medicare_tax) (Some (round2 additional_medicare_tax))
          (round2 total_tax)).

(** The loop over the W-2 records of [calculate_state_tax]: the wages
    only. *)
Fixpoint state_wages (docs : list (string * doc_data)) (total_wages : Q)
  : result Q :=
  match docs with
  | [] => Ok total_wages
  | (doc_type, doc) :: docs' =>
      match String.eqb doc_type "w2", data doc with
      | true, Some d =>
          total_wages' ← add_field total_wages "wages_tips_other_comp" d;
          state_wages docs' total_wages'
      | _, _ => state_wages docs' total_wages
      end
  end.

(** The dict returned by [calculate_state_tax]; ['taxable_income'] is bound
    for California only. *)
Record state_result : Type := mkState {
  state_name : string;                 (* 'state' *)
  state_taxable_income : option Q;     (* 'taxable_income' *)
  state_tax_owed : Q;                  (* 'tax_owed' *)
  state_refund : Q;                    (* 'refund' *)
  state_amount_due : Q                 (* 'amount_due' *)
}.

Definition calculate_state_tax (input : tax_input) (state : string)
  : result state_result :=
  let extracted_data := default [] (extracted_data input) in
  total_wages ← state_wages extracted_data 0;
  if String.eqb (upper state) "CA" then
    let state_tax_rate := 0.133 in
    let state_tax_owed := total_wages * state_tax_rate in
    Ok (mkState state (Some total_wages) (round2 state_tax_owed) 0
          (round2 state_tax_owed))
  else Ok (mkState state None 0 0 0).

End TaxEngine.

Import TaxEngine.

(* ================================================================== *)
(** * ocr.py and bot.py: from the uploaded documents to the records *)
(* ================================================================== *)

Module Bot.

(** [OCRProcessor.extract_text_from_pdf]: a placeholder that reads
    nothing. *)
Definition extract_text_from_pdf (pdf_bytes : string) : string := EmptyString.

(** What [process_documents] reads of an uploaded document. *)
Record document : Set := mkDocument {
  mime_type : string;
  file_bytes : string
}.

(** [d[k] = v] on a dict in insertion order: a key that is there keeps its
    place and takes the new value, a new key goes to the end. *)
Fixpoint setitem {A} (k : string) (v : A) (d : list (string * A))
  : list (string * A) :=
  match d with
  | [] => [ (k, v) ]
  | (k', v') :: d' =>
      if String.eqb k' k then (k', v) :: d' else (k', v') :: setitem k v d'
  end.

Section WithCollaborators.

(** [OCRProcessor.extract_text]: the recognition of an image, done by
    libraries outside of the repository; it catches its own errors and
    returns a string. *)
Variable extract_text : string → string.

(** [DataValidator.validate_data], of validator.py, which is not among the
    sources: the record keeps its result under ['validation'], which nothing
    modelled here reads; what matters is whether it raises. *)
Variable validate_data : gmap string value → string → result unit.

(** The body of the loop of [process_documents], on the two accumulators
    [extracted_data] and [doc_types]; an exception anywhere in the body
    skips the rest of it. *)
Definition process_document (doc : document)
    (acc : list (string * doc_data) * list string)
  : list (string * doc_data) * list string :=
  let '(extracted_data, doc_types) := acc in
  let text :=
    if String.eqb (mime_type doc) "application/pdf"
    then extract_text_from_pdf (file_bytes doc)
    else extract_text (file_bytes doc) in
  match classify_document text with
  | Raise _ => (extracted_data, doc_types)
  | Ok doc_type =>
      let doc_types := (doc_types ++ [ doc_type ])%list in
      let data := extract_data text doc_type in
      match validate_data data doc_type with
      | Raise _ => (extracted_data, doc_types)
      | Ok _ => (setitem doc_type (mkDoc (Some data)) extracted_data, doc_types)
      end
  end.

(** The records and the document types that [process_documents] leaves in
    the session. *)
Definition process_documents (documents : list document)
  : list (string * doc_data) * list string :=
  fold_left (λ acc doc, process_document doc acc) documents ([], []).

End WithCollaborators.

End Bot.

Import Bot.

(* ================================================================== *)
(** * benefits.py: the rules of the screening *)
(* ================================================================== *)

Module Benefits.

Local Open Scope Q_scope.

(** [d.get(k, default)] of a dict with integer keys. *)
Fixpoint get_int (d : list (Z * Q)) (k : Z) (default : Q) : Q :=
  match d with
  | [] => default
  | (k', v) :: d' => if (k' =? k)%Z then v else get_int d' k default
  end.

Definition _check_eitc_eligibility (income : Q) (dependents : Z)
    (filing_status : string) : bool :=
  let max_income :=
    get_int [ (0%Z, 17050); (1%Z, 24000); (2%Z, 24000); (3%Z, 24000) ]
      dependents 24000 in
  Qle_bool income max_income && (0 <=? dependents)%Z.

Definition _estimate_eitc (income : Q) (dependents : Z) : Q :=
  let base_credit := inject_Z (dependents * 400) in
  let phase_out_start := inject_Z (9000 + dependents * 1000) in
  if Qlt_le_dec phase_out_start income then
    let reduction := (income - phase_out_start) * 0.0765 in
    Qmax 0 (base_credit - reduction)
  else base_credit.

Definition _estimate_caleitc (income : Q) (dependents : Z) : Q :=
  let federal_eitc := _estimate_eitc income dependents in
  federal_eitc * 0.035.

Definition _check_snap_eligibility (income : Q) (dependents : Z)
    (zip_code : string) : bool :=
  let household_size := (dependents + 1)%Z in
  let gross_limit :=
    get_int
      [ (1%Z, 1526); (2%Z, 2064); (3%Z, 2602); (4%Z, 3140); (5%Z, 3678);
        (6%Z, 4216); (7%Z, 4754); (8%Z, 5292) ]
      (Z.min household_size 8)
      (inject_Z (5292 + (household_size - 8) * 448)) in
  let monthly_income := income / 12 in
  Qle_bool monthly_income gross_limit.

Definition _check_medi_cal_eligibility (income : Q) (dependents : Z) : bool :=
  let household_size := (dependents + 1)%Z in
  let fpl_percentage := 138 in
  let estimated_fpl := inject_Z (household_size * 15000) in
  let income_limit := estimated_fpl * (fpl_percentage / 100) in
  Qle_bool income income_limit.

Definition _check_liheap_eligibility (income : Q) (dependents : Z)
    (zip_code : string) : bool :=
  let household_size := (dependents + 1)%Z in
  let income_limit := inject_Z (household_size * 12000) in
  Qle_bool income income_limit.

(** [zip_code[0]] looked up in [zip_state_map]. *)
Definition _get_state_from_zip (zip_code : string) : string :=
  match zip_code with
  | EmptyString => "CA"
  | String first_digit _ =>
      match assoc (String first_digit EmptyString)
              [ ("9", "CA"); ("8", "CA"); ("7", "OR"); ("6", "WA") ] with
      | Some state => state
      | None => "CA"
      end
  end.

End Benefits.

Import Benefits.

(* ================================================================== *)
(** * Notions used to state the properties *)
(* ================================================================== *)

Module Spec.

Local Open Scope Q_scope.

(** The number of ASCII digits of a string. *)
Fixpoint count_digits (s : string) : nat :=
  match s with
  | EmptyString => 0
  | String c s' => if is_digit c then S (count_digits s') else count_digits s'
  end.

(** The score of a list of marker phrases on a text: how many of its
    phrases occur in the lower-cased text. *)
Definition score (text : string) (kws : list string) : nat :=
  length (filter (λ kw, contains kw (lower text) = true) kws).

(** Some marker phrase of some document type occurs in the lower-cased
    text. *)
Definition some_marker (text : string) : Prop :=
  Exists (λ '(_, kws), (0 < score text kws)%nat) keywords.

(** No marker phrase of any document type occurs in the lower-cased text. *)
Definition no_marker (text : string) : Prop :=
  Forall (λ '(_, kws), Forall (λ kw, contains kw (lower text) = false) kws)
    keywords.

(** [min(x, hi)] where [hi] may be infinite. *)
Definition cap (x : Q) (hi : bound) : Q :=
  match hi with
  | Fin h => Qmin x h
  | Inf => x
  end.

(** The sum, over the brackets in order, of [(min(income, upper) - lower) *
    rate] for each bracket whose lower bound is strictly below the income. *)
Fixpoint bracket_sum (brackets : list bracket) (income : Q) : Q :=
  match brackets with
  | [] => 0
  | (lower, upper, rate) :: brackets' =>
      (if Qlt_le_dec lower income then (cap income upper - lower) * rate else 0)
      + bracket_sum brackets' income
  end.

(** The lower bounds never decrease along the table, starting from [lo]. *)
Fixpoint ascending (lo : Q) (brackets : list bracket) : Prop :=
  match brackets with
  | [] => True
  | (lower, _, _) :: brackets' => lo <= lower ∧ ascending lower brackets'
  end.

(** An amount in whole cents. *)
Definition cents (x : Q) : Prop := ∃ z : Z, x == z # 100.

(** A whole number of dollars. *)
Definition dollars (x : Q) : Prop := ∃ z : Z, x == inject_Z z.

(** A bracket with bounds in whole dollars and a rate in whole percents. *)
Definition whole_bracket (b : bracket) : Prop :=
  let '(lower, upper, rate) := b in
  dollars lower
  ∧ match upper with Fin h => dollars h | Inf => True end
  ∧ cents rate.

(** A bracket that is not empty backwards and has a rate that is not
    negative. *)
Definition proper_bracket (b : bracket) : Prop :=
  let '(lower, upper, rate) := b in
  match upper with Fin h => lower <= h | Inf => True end ∧ 0 <= rate.

(** The brackets follow each other from [lo] on without gap or overlap, and
    the last one has no upper end. *)
Fixpoint contiguous (lo : Q) (brackets : list bracket) : Prop :=
  match brackets with
  | [] => False
  | (lower, upper, _) :: brackets' =>
      lower == lo
      ∧ match upper with
        | Fin h => lo <= h ∧ contiguous h brackets'
        | Inf => brackets' = []
        end
  end.

(** The rates of a table lie between [rmin] and [rmax]. *)
Definition rates_between (rmin rmax : Q) (brackets : list bracket) : Prop :=
  Forall (λ '(_, _, rate), rmin <= rate ∧ rate <= rmax) brackets.

(** A string of exactly [n] ASCII digits. *)
Definition digit_string (n : nat) (s : string) : Prop :=
  String.length s = n ∧ count_digits s = n.

(** The form ddd-dd-dddd of a social security number. *)
Definition ssn_form (s : string) : Prop :=
  ∃ a b c, s = a +:+ "-" +:+ b +:+ "-" +:+ c
           ∧ digit_string 3 a ∧ digit_string 2 b ∧ digit_string 4 c.

(** The form dd-ddddddd of an employer identification number. *)
Definition ein_form (s : string) : Prop :=
  ∃ a b, s = a +:+ "-" +:+ b ∧ digit_string 2 a ∧ digit_string 7 b.

(** Reading [n] digits from a cursor. *)
Fixpoint read_digits (n : nat) (c : cursor) : option cursor :=
  match n with
  | O => Some c
  | S n' =>
      match rest c with
      | String a s => if is_digit a then read_digits n' (Cursor (Some a) s) else None
      | EmptyString => None
      end
  end.

(** A record made by [extract_data] from some text, for the type it is
    filed under. *)
Definition extracted_record (entry : string * doc_data) : Prop :=
  ∃ text, entry.2 = mkDoc (Some (extract_data text entry.1)).

(** The seven document types. *)
Definition document_types : list string :=
  [ "w2"; "1099-misc"; "1099-k"; "1099-nec"; "1098"; "receipt"; "other" ].

(** What the session holds after any number of documents: one record per
    document type, each made by [extract_data] for the type it is filed
    under, every type filed is among the types seen, and every type seen is
    one of the seven. *)
Definition session_ok (acc : list (string * doc_data) * list string) : Prop :=
  List.NoDup (map fst acc.1)
  ∧ Forall extracted_record acc.1
  ∧ (∀ k, In k (map fst acc.1) → In k acc.2)
  ∧ Forall (λ t, In t document_types) acc.2.

(** A field that is absent or holds a number. *)
Definition numeric_field (k : string) (d : gmap string value) : Prop :=
  match d !! k with
  | Some v => ∃ q, v = VNum q
  | None => True
  end.

(** The W-2 fields that the federal computation adds up are numbers. *)
Definition numeric_w2 (entry : string * doc_data) : Prop :=
  ∀ d, data entry.2 = Some d →
       numeric_field "wages_tips_other_comp" d
       ∧ numeric_field "federal_income_tax_withheld" d.

(** The part of the priority order that follows the gig block. *)
Definition state_part (answer : string → string) : list string :=
  if startswith (answer "zip_code") "9" || startswith (answer "zip_code") "8"
  then [ "state_specific" ]
  else [].

(** The part of the priority order made by the gig block. *)
Definition gig_part (doc_types : list string) (answer : string → string)
  : list string :=
  if any_1099 doc_types then
    "gig_method" ::
    (if String.eqb (answer "gig_method") "Standard Mileage Rate"
     then [ "miles" ]
     else if String.eqb (answer "gig_method") "Actual Expenses"
     then [ "phone_percent"; "home_office_sqft" ]
     else [])
  else [].

(** The keys of the questions in the priority order of the questionnaire,
    for the documents seen and the answers the user gives: the three basic
    questions, then, if some document type contains 1099, [gig_method] and
    the follow-ups of the method chosen, then, if the ZIP code starts with 9
    or 8, [state_specific]. *)
Definition priority_order (doc_types : list string) (answer : string → string)
  : list string :=
  ([ "filing_status"; "dependents"; "zip_code" ]
   ++ gig_part doc_types answer ++ state_part answer)%list.

(** [get_next_question] asks the question [k]. *)
Definition asks (user_data : gmap string answer_value) (doc_types : list string)
    (language k : string) : Prop :=
  ∃ q, get_next_question user_data doc_types language = Ok (Some q) ∧ key q = k.

(** The gig block has nothing left to ask. *)
Definition gig_done (user_data : gmap string answer_value)
    (doc_types : list string) (language : string) : Prop :=
  (if any_1099 doc_types then gig_questions user_data language else Ok None)
  = Ok None.

(** The questionnaire has prompts for the language. *)
Definition prompted (language : string) : Prop :=
  language = "en" ∨ language = "es".

(** The numbers that [validate_answer] lets through for a numeric key:
    nothing below 0, and for [phone_percent] nothing above 100; a number
    that is not a number, or an infinite one, compares neither below 0 nor,
    for [phone_percent], within the range. *)
Definition passes_number_check (k : string) (x : float) : Prop :=
  match x with
  | Finite q => 0 <= q ∧ (k = "phone_percent" → q <= 100)
  | PosInf | NaN => k ≠ "phone_percent"
  | NegInf => False
  end.

(** [answer.lower().replace(' ', '_')] *)
Definition normalized (answer : string) : string :=
  replace " " "_" (lower answer).

(** All the keys the questionnaire can ask. *)
Definition question_keys : list string :=
  [ "filing_status"; "dependents"; "zip_code"; "gig_method"; "miles";
    "phone_percent"; "home_office_sqft"; "state_specific" ].

(** One instance of [float]: plain decimal literals with an optional minus
    sign, and the words nan and inf.  It is used to run the questionnaire on
    examples. *)
Definition unsigned_literal (s : string) : option Q :=
  if contains "." s then float_of_decimal s
  else match s with
       | EmptyString => None
       | _ => inject_Z <$> digits_value s 0
       end.

Definition float_of_plain (s : string) : option float :=
  if String.eqb (lower s) "nan" then Some NaN
  else if String.eqb (lower s) "inf" then Some PosInf
  else match s with
       | String "-" s' => (λ q, Finite (- q)) <$> unsigned_literal s'
       | _ => Finite <$> unsigned_literal s
       end.

(** A record that the 1099 loop reads without finding income in it. *)
Definition no_1099_income (entry : string * doc_data) : Prop :=
  startswith entry.1 "1099" = true →
  ∀ d, data entry.2 = Some d → d !! "nonemployee_compensation" = None.

End Spec.

Import Spec.

Local Open Scope list_scope.
Local Open Scope Q_scope.

(* ================================================================== *)
(** * Sample inputs *)
(* ================================================================== *)

Module Samples.

Local Open Scope Q_scope.

(** A W-2 and a 1099-K whose text held no amount. *)
Definition w2_and_1099k_without_income : tax_input :=
  mkInput
    (Some [ ("w2", mkDoc (Some {[ "wages_tips_other_comp" := VNum 60000 ]}));
            ("1099-k", mkDoc (Some {[ "ssn" := VNone; "ein" := VNone ]})) ])
    (Some ∅).

(** A single filer whose W-2 shows wages below the standard deduction and
    no withholding. *)
Definition w2_below_deduction : tax_input :=
  mkInput
    (Some [ ("w2", mkDoc (Some {[ "ssn" := VNone;
                                  "wages_tips_other_comp" := VNum 10000.00 ]})) ])
    (Some {[ "filing_status" := AStr "single" ]}).

(** The W-2 of the end-to-end scenario: wages 60000, 9000 withheld. *)
Definition w2_60000_single : tax_input :=
  mkInput
    (Some [ ("w2", mkDoc (Some {[ "wages_tips_other_comp" := VNum 60000;
                                  "federal_income_tax_withheld" := VNum 9000 ]})) ])
    (Some {[ "filing_status" := AStr "single"; "dependents" := AInt 0 ]}).

(** A head-of-household filer with one W-2. *)
Definition head_of_household_w2 : tax_input :=
  mkInput
    (Some [ ("w2", mkDoc (Some {[ "ssn" := VStr "123-45-6789";
                                  "wages_tips_other_comp" := VNum 40000;
                                  "federal_income_tax_withheld" := VNum 3000 ]})) ])
    (Some {[ "filing_status" := AStr "head_of_household";
             "dependents" := AInt 1;
             "zip_code" := AStr "10001" ]}).

(** The text of a W-2 on which no social security number was read. *)
Definition w2_text_without_ssn : string :=
  "W-2 Wage and Tax Statement  Wages, tips, other compensation 50,000.00".

(** The answers so far of a user with a 1099 who chose the mileage rate. *)
Definition mileage_answers : gmap string answer_value :=
  {[ "filing_status" := AStr "single";
     "dependents" := AInt 0;
     "zip_code" := AStr "10001";
     "gig_method" := AStr "Standard Mileage Rate" ]}.

(** The same user answering the Spanish questionnaire: the option chosen is
    stored as it is shown. *)
Definition spanish_mileage_answers : gmap string answer_value :=
  {[ "filing_status" := AStr "soltero";
     "dependents" := AInt 0;
     "zip_code" := AStr "10001";
     "gig_method" := AStr "Tarifa de Millaje Estándar" ]}.

(** The answers of a Californian gig worker who deducts actual expenses. *)
Definition gig_worker_answers (k : string) : string :=
  if String.eqb k "filing_status" then "Single"
  else if String.eqb k "dependents" then "2"
  else if String.eqb k "zip_code" then "94110"
  else if String.eqb k "gig_method" then "Actual Expenses"
  else if String.eqb k "miles" then "1200"
  else if String.eqb k "phone_percent" then "40"
  else if String.eqb k "home_office_sqft" then "120"
  else "no".

(** A 1099-NEC with a high income. *)
Definition high_1099_income : tax_input :=
  mkInput
    (Some [ ("1099-nec",
             mkDoc (Some {[ "ssn" := VNone; "ein" := VStr "12-3456789";
                            "nonemployee_compensation" := VNum 300000 ]})) ])
    (Some ∅).

(** A recognition that finds the bytes of the image to be its text, and a
    validator that passes everything: stand-ins used to run
    [process_documents] on examples. *)
Definition bytes_as_text (image_bytes : string) : string := image_bytes.

Definition validator_passes (fields : gmap string value) (doc_type : string)
  : result unit := Ok tt.

(** Two photographs of W-2 forms and a PDF. *)
Definition first_w2_image : document :=
  mkDocument "image/jpeg"
    "Form W-2 Wage and Tax Statement 111-22-3333 Wages 30,000.00 Federal income tax withheld 2,500.00".

Definition second_w2_image : document :=
  mkDocument "image/png"
    "Form W-2 Wage and Tax Statement 111-22-3333 Wages 45,000.00 Federal income tax withheld 4,100.00".

Definition w2_pdf : document :=
  mkDocument "application/pdf"
    "Form W-2 Wage and Tax Statement 111-22-3333 Wages 45,000.00".

End Samples.

Import Samples.

(* ================================================================== *)
(** * Rounding *)
(* ================================================================== *)

Section Rounding.

Lemma round_half_even_comp (x y : Q) : x == y → round_half_even x = round_half_even y.
Proof.
  intros E. unfold round_half_even.
  rewrite (Qfloor_comp _ _ E).
  assert (C : (x - inject_Z (Qfloor y) ?= 1 # 2) = (y - inject_Z (Qfloor y) ?= 1 # 2))
    by (now rewrite E).
  now rewrite C.
Qed.

Lemma round2_comp (x y : Q) : x == y → round2 x = round2 y.
Proof.
  intros E. unfold round2. f_equal. apply round_half_even_comp. now rewrite E.
Qed.

Lemma round_half_even_Z (z : Z) : round_half_even (inject_Z z) = z.
Proof.
  unfold round_half_even. rewrite Qfloor_Z.
  assert (C : (inject_Z z - inject_Z z ?= 1 # 2) = Lt).
  { apply Qlt_alt. generalize (inject_Z z). intros q.
    assert (E : q - q == 0) by ring. now rewrite E. }
  now rewrite C.
Qed.

Lemma round_half_even_nonneg (x : Q) : 0 <= x → (0 <= round_half_even x)%Z.
Proof.
  intros H. unfold round_half_even.
  assert (F : (0 <= Qfloor x)%Z).
  { rewrite <- (Qfloor_Z 0). now apply Qfloor_resp_le. }
  destruct (x - inject_Z (Qfloor x) ?= 1 # 2); [destruct (Z.even _) | |]; lia.
Qed.

Lemma round2_nonneg (x : Q) : 0 <= x → 0 <= round2 x.
Proof.
  intros H. unfold round2, Qle. simpl.
  assert (0 <= round_half_even (x * 100))%Z
    by (apply round_half_even_nonneg; lra).
  lia.
Qed.

Lemma round2_cents (x : Q) : cents x → round2 x == x.
Proof.
  intros [z E]. unfold round2.
  assert (E' : x * 100 == inject_Z z).
  { rewrite E. unfold Qeq, inject_Z. simpl. lia. }
  rewrite (round_half_even_comp _ _ E'), round_half_even_Z. now rewrite E.
Qed.

Lemma round2_zero : round2 0 == 0.
Proof. reflexivity. Qed.

Lemma cents_plus (x y : Q) : cents x → cents y → cents (x + y).
Proof.
  intros [a Ha] [b Hb]. exists (a + b)%Z. rewrite Ha, Hb.
  unfold Qeq, Qplus. simpl. lia.
Qed.

Lemma cents_zero : cents 0.
Proof. exists 0%Z. reflexivity. Qed.

End Rounding.

(* ================================================================== *)
(** * The questionnaire: answers *)
(* ================================================================== *)

Section Answers.

Variable float_of_str : string → option float.

Lemma count_digits_le_len (s : string) : (count_digits s <= len s)%nat.
Proof.
  induction s as [|c s IH]; simpl; [lia|].
  destruct (is_digit c) eqn:D.
  - assert (C : is_continuation c = false).
    { revert D. clear.
      destruct c as [[] [] [] [] [] [] [] []]; vm_compute; congruence. }
    rewrite C. lia.
  - destruct (is_continuation c); lia.
Qed.

(** C7, as the code has it: the ZIP check is on the number of characters
    left once the hyphens are removed, whatever the characters are.
    [validate_answer('zip_code', answer)] is true exactly when at least five
    characters remain, and its second component is always the ZIP message.
    An answer with five digits or more is therefore accepted, and an answer
    with fewer than five characters is refused. *)
Theorem C7_zip_code_length_check (answer : string) :
  let r := validate_answer float_of_str "zip_code" answer in
  (r.1 = true ↔ (5 <= len (replace "-" EmptyString answer))%nat)
  ∧ r.2 = "Please enter a valid ZIP code"
  ∧ ((5 <= count_digits (replace "-" EmptyString answer))%nat → r.1 = true)
  ∧ ((len (replace "-" EmptyString answer) < 5)%nat → r.1 = false).
Proof.
  assert (R : validate_answer float_of_str "zip_code" answer
              = ((5 <=? len (replace "-" EmptyString answer))%nat,
                 "Please enter a valid ZIP code")) by reflexivity.
  cbn zeta. rewrite R. cbn [fst snd].
  repeat split.
  - intros H. now apply Nat.leb_le in H.
  - intros H. now apply Nat.leb_le.
  - intros H. apply Nat.leb_le.
    pose proof (count_digits_le_len (replace "-" EmptyString answer)). lia.
  - intros H. apply Nat.leb_gt. lia.
Qed.

End Answers.

(** C7 fails as stated: "abcde" holds no digit, and the ZIP check
    accepts it. *)
Lemma C7_letters_accepted :
  (count_digits (replace "-" EmptyString "abcde") < 5)%nat
  ∧ (validate_answer float_of_plain "zip_code" "abcde").1 = true.
Proof. split; [vm_compute; lia | reflexivity]. Qed.

Lemma C7_zip_code_length_check_witness :
  (validate_answer float_of_plain "zip_code" "94110-1234").1 = true.
Proof.
  apply (C7_zip_code_length_check float_of_plain "94110-1234").
  vm_compute. lia.
Defined.

(* ================================================================== *)
(** * Self-employment tax *)
(* ================================================================== *)

Section SelfEmployment.

Lemma total_1099_absent (docs : list (string * doc_data)) :
  Forall no_1099_income docs →
  ∀ total, ∃ total', total_1099 docs total = Ok total' ∧ total' == total.
Proof.
  induction 1 as [|[doc_type doc] docs H _ IH]; intros total; simpl.
  - exists total. split; [reflexivity | reflexivity].
  - destruct (startswith doc_type "1099") eqn:S; [|apply IH].
    destruct (data doc) as [d|] eqn:D; [|apply IH].
    unfold add_field. rewrite (H S d D). simpl.
    destruct (IH (total + 0)) as (t & E & Q). exists t. split; [exact E|].
    rewrite Q. ring.
Qed.

(** C8: when no record whose type starts with 1099 carries a
    [nonemployee_compensation] field, [calculate_self_employment_tax]
    returns, without raising, the bundle whose [total_income],
    [social_security_tax], [medicare_tax] and [total_tax] are all 0. *)
Theorem C8_no_1099_income_all_zero (input : tax_input) :
  Forall no_1099_income (default [] (extracted_data input)) →
  calculate_self_employment_tax input = Ok (mkSE 0 0 0 None 0).
Proof.
  intros H. unfold calculate_self_employment_tax.
  destruct (total_1099_absent _ H 0) as (t & E & Q). rewrite E. simpl.
  assert (B : Qeq_bool t 0 = true) by now apply Qeq_bool_iff.
  now rewrite B.
Qed.

End SelfEmployment.

Lemma C8_no_1099_income_all_zero_witness :
  calculate_self_employment_tax w2_and_1099k_without_income
  = Ok (mkSE 0 0 0 None 0).
Proof.
  apply C8_no_1099_income_all_zero.
  repeat constructor; intros S d D; simpl in *;
    [discriminate S | injection D as <-; reflexivity].
Defined.

(* ================================================================== *)
(** * Federal tax: the filing status *)
(* ================================================================== *)

Section FilingStatus.

Lemma assoc_two {A} (s k1 k2 : string) (v1 v2 : A) :
  s ≠ k1 → s ≠ k2 → assoc s [ (k1, v1); (k2, v2) ] = None.
Proof.
  intros N1 N2. simpl.
  destruct (String.eqb_spec k1 s); [congruence|].
  destruct (String.eqb_spec k2 s); [congruence|]. reflexivity.
Qed.

Lemma get_or_other {A} (k1 k2 : string) (v1 v2 default : A) (fs : answer_value) :
  fs ≠ AStr k1 → fs ≠ AStr k2 →
  get_or [ (k1, v1); (k2, v2) ] fs default = default.
Proof.
  intros N1 N2. destruct fs as [z|x|s]; try reflexivity.
  unfold get_or. rewrite assoc_two; [reflexivity | congruence | congruence].
Qed.


End FilingStatus.


(* ================================================================== *)
(** * The questionnaire: the next question *)
(* ================================================================== *)

Section NextQuestion.

Lemma has_false {A} (k : string) (d : gmap string A) :
  has k d = false ↔ d !! k = None.
Proof. unfold has. destruct (d !! k); split; congruence. Qed.

Lemma has_true {A} (k : string) (d : gmap string A) :
  has k d = true ↔ is_Some (d !! k).
Proof.
  unfold has. destruct (d !! k); split; try congruence; eauto.
  intros [? ?]. congruence.
Qed.

Lemma eq_str_true (v : option answer_value) (s : string) :
  eq_str v s = true ↔ v = Some (AStr s).
Proof.
  destruct v as [[z|x|s']|]; simpl; split; try congruence.
  - intros E. apply String.eqb_eq in E. congruence.
  - intros [= ->]. apply String.eqb_refl.
Qed.

Lemma choice_question_key (language k : string) (q : Question) :
  choice_question language k = Ok (Some q) → key q = k.
Proof.
  unfold choice_question.
  destruct (prompt language k); simpl; [|discriminate].
  destruct (options_for language k); simpl; [|discriminate].
  now intros [= <-].
Qed.

Lemma plain_question_key (language k question_key ty : string) (q : Question) :
  plain_question language k question_key ty = Ok (Some q) → key q = k.
Proof.
  unfold plain_question.
  destruct (prompt language question_key); simpl; [|discriminate].
  now intros [= <-].
Qed.

Lemma ask_expenses_key (qs : list (string * string))
    (user_data : gmap string answer_value) (language : string) (q : Question) :
  ask_expenses qs user_data language = Ok (Some q) →
  In (key q) (map fst qs) ∧ user_data !! key q = None.
Proof.
  induction qs as [|[k question_key] qs IH]; simpl; [discriminate|].
  destruct (has k user_data) eqn:H; simpl.
  - intros E. destruct (IH E). auto.
  - intros E. apply plain_question_key in E. rewrite E.
    split; [now left | now apply has_false].
Qed.

(** What [gig_questions] can ask, and when. *)
Lemma gig_questions_key (user_data : gmap string answer_value)
    (language : string) (q : Question) :
  gig_questions user_data language = Ok (Some q) →
  user_data !! key q = None
  ∧ (key q = "gig_method"
     ∨ (key q = "miles"
        ∧ user_data !! "gig_method" = Some (AStr "Standard Mileage Rate"))
     ∨ ((key q = "phone_percent" ∨ key q = "home_office_sqft")
        ∧ user_data !! "gig_method" = Some (AStr "Actual Expenses"))).
Proof.
  unfold gig_questions.
  destruct (has "gig_method" user_data) eqn:G; cbn [negb].
  2:{ intros E. apply choice_question_key in E. rewrite E.
      split; [now apply has_false | now left]. }
  destruct (eq_str _ "Standard Mileage Rate") eqn:M.
  { apply eq_str_true in M.
    destruct (has "miles" user_data) eqn:Mi; cbn [negb]; [discriminate|].
    intros E. apply plain_question_key in E. rewrite E.
    split; [now apply has_false | right; left; auto]. }
  destruct (eq_str _ "Actual Expenses") eqn:A; [|discriminate].
  apply eq_str_true in A.
  intros E. apply ask_expenses_key in E as [I N].
  split; [exact N|]. right; right. split; [|exact A].
  simpl in I. intuition.
Qed.

(** What [get_next_question] can ask, and when: the priority rules. *)
Lemma get_next_question_key (user_data : gmap string answer_value)
    (doc_types : list string) (language : string) (q : Question) :
  get_next_question user_data doc_types language = Ok (Some q) →
  user_data !! key q = None
  ∧ (key q = "filing_status" ∨ key q = "dependents" ∨ key q = "zip_code"
     ∨ key q = "gig_method"
     ∨ (key q = "miles"
        ∧ user_data !! "gig_method" = Some (AStr "Standard Mileage Rate"))
     ∨ ((key q = "phone_percent" ∨ key q = "home_office_sqft")
        ∧ user_data !! "gig_method" = Some (AStr "Actual Expenses"))
     ∨ key q = "state_specific").
Proof.
  unfold get_next_question.
  destruct (has "filing_status" user_data) eqn:F; simpl.
  2:{ intros E. apply choice_question_key in E. rewrite E.
      split; [now apply has_false | auto]. }
  destruct (has "dependents" user_data) eqn:D; simpl.
  2:{ intros E. apply plain_question_key in E. rewrite E.
      split; [now apply has_false | auto]. }
  destruct (has "zip_code" user_data) eqn:Z; simpl.
  2:{ intros E. apply plain_question_key in E. rewrite E.
      split; [now apply has_false | auto]. }
  destruct (if any_1099 doc_types then _ else _) as [[g|]|e] eqn:G; simpl;
    [| |discriminate].
  { intros [= <-].
    destruct (any_1099 doc_types); [|discriminate].
    apply gig_questions_key in G as [N C]. split; [exact N|]. intuition. }
  destruct (zip_starts_9_or_8 user_data) as [ca|e]; simpl; [|discriminate].
  destruct ca; simpl; [|discriminate].
  destruct (has "state_specific" user_data) eqn:S; simpl; [discriminate|].
  intros E. apply plain_question_key in E. rewrite E.
  split; [now apply has_false | intuition].
Qed.

(** C10: the follow-up questions of the gig block depend on the exact string
    stored under [gig_method].  [miles] is asked only when it is
    'Standard Mileage Rate', [phone_percent] and [home_office_sqft] only when
    it is 'Actual Expenses'; [process_answer] stores the answer to
    [gig_method] as it is given, so that with any other stored string, such
    as an option of the Spanish questionnaire, no follow-up is asked. *)
Theorem C10_gig_follow_ups_gated_on_stored_string
    (float_of_str : string → option float)
    (user_data : gmap string answer_value) (doc_types : list string)
    (language answer : string) (q : Question) :
  get_next_question user_data doc_types language = Ok (Some q) →
  (key q = "miles" →
     user_data !! "gig_method" = Some (AStr "Standard Mileage Rate"))
  ∧ (key q = "phone_percent" ∨ key q = "home_office_sqft" →
     user_data !! "gig_method" = Some (AStr "Actual Expenses"))
  ∧ (user_data !! "gig_method" ≠ Some (AStr "Standard Mileage Rate") →
     user_data !! "gig_method" ≠ Some (AStr "Actual Expenses") →
     key q ≠ "miles" ∧ key q ≠ "phone_percent" ∧ key q ≠ "home_office_sqft")
  ∧ process_answer float_of_str "gig_method" answer user_data
    = Ok (<["gig_method" := AStr answer]> user_data)
  ∧ get_next_question spanish_mileage_answers [ "1099-nec" ] "es" = Ok None.
Proof.
  intros E. apply get_next_question_key in E as [_ C].
  assert (M : key q = "miles" →
              user_data !! "gig_method" = Some (AStr "Standard Mileage Rate")).
  { intros K. rewrite K in C.
    destruct C as [C|[C|[C|[C|[[_ C]|[[[C|C] _]|C]]]]]]; try discriminate C.
    exact C. }
  assert (A : key q = "phone_percent" ∨ key q = "home_office_sqft" →
              user_data !! "gig_method" = Some (AStr "Actual Expenses")).
  { intros K.
    destruct C as [C|[C|[C|[C|[[C _]|[[_ C]|C]]]]]]; try exact C;
      destruct K as [K|K]; rewrite K in C; discriminate C. }
  split; [exact M|]. split; [exact A|].
  split; [|split; reflexivity].
  intros N1 N2. repeat split; intros K; [apply N1 | apply N2 | apply N2]; auto.
Qed.

End NextQuestion.

Lemma C10_gig_follow_ups_gated_on_stored_string_witness :
  mileage_answers !! "gig_method" = Some (AStr "Standard Mileage Rate").
Proof.
  eapply (C10_gig_follow_ups_gated_on_stored_string float_of_plain
            mileage_answers [ "1099-nec" ] "en" EmptyString).
  - vm_compute. reflexivity.
  - reflexivity.
Defined.

(* ================================================================== *)
(** * The questionnaire: the order of the questions *)
(* ================================================================== *)

Section Interview.

Variable float_of_str : string → option float.
Variable answer : string → string.
Variable doc_types : list string.
Variable language : string.

Hypothesis language_prompted : prompted language.
Hypothesis answers_accepted :
  Forall (λ k, accepted float_of_str k (answer k) = true) question_keys.

Lemma has_insert_eq {A} (k : string) (v : A) (d : gmap string A) :
  has k (<[k := v]> d) = true.
Proof. unfold has. now rewrite lookup_insert_eq. Qed.

Lemma has_insert_ne {A} (k k' : string) (v : A) (d : gmap string A) :
  k' ≠ k → has k (<[k' := v]> d) = has k d.
Proof. intros N. unfold has. now rewrite lookup_insert_ne. Qed.

Lemma has_empty {A} (k : string) : has k (∅ : gmap string A) = false.
Proof. reflexivity. Qed.

(** An accepted answer passes [validate_answer] and is stored under its key;
    outside of the numeric keys and of [filing_status] it is stored as it
    is. *)
Lemma accepted_stored (k : string) :
  In k question_keys →
  (validate_answer float_of_str k (answer k)).1 = true
  ∧ ∃ v, (∀ user_data,
            process_answer float_of_str k (answer k) user_data
            = Ok (<[k := v]> user_data))
         ∧ (k = "zip_code" ∨ k = "gig_method" → v = AStr (answer k)).
Proof.
  intros I. pose proof answers_accepted as A. rewrite Forall_forall in A.
  apply list_elem_of_In in I. specialize (A _ I). apply list_elem_of_In in I.
  unfold accepted in A. apply andb_prop in A as [V P]. split; [exact V|].
  clear V. simpl in I.
  destruct I as [<-|[<-|[<-|[<-|[<-|[<-|[<-|[<-|[]]]]]]]]];
    unfold process_answer in *; cbn [String.eqb Ascii.eqb Bool.eqb mem existsb orb] in *.
  all: try (eexists; split; [intros; reflexivity | intros [K|K]; congruence]).
  all: unfold float_or_raise in *; destruct (float_of_str _) as [x|]; simpl in *;
       try discriminate.
  all: try (destruct (int x) as [n|e]; simpl in *; try discriminate).
  all: eexists; split; [intros; reflexivity | intros [K|K]; discriminate K].
Qed.

Lemma plain_question_asks (k question_key ty : string) :
  In question_key
    [ "dependents"; "zip_code"; "miles"; "phone_percent"; "home_office";
      "state_specific" ] →
  ∃ q, plain_question language k question_key ty = Ok (Some q) ∧ key q = k.
Proof.
  intros I. simpl in I.
  destruct language_prompted as [-> | ->];
    destruct I as [<-|[<-|[<-|[<-|[<-|[<-|[]]]]]]];
    eexists; split; reflexivity.
Qed.

Lemma choice_question_asks (k : string) :
  In k [ "filing_status"; "gig_method" ] →
  ∃ q, choice_question language k = Ok (Some q) ∧ key q = k.
Proof.
  intros I. simpl in I.
  destruct language_prompted as [-> | ->];
    destruct I as [<-|[<-|[]]]; eexists; split; reflexivity.
Qed.

(** One turn of the interview on a question that is asked. *)
Lemma interview_turn (turns : nat) (user_data : gmap string answer_value)
    (k : string) :
  asks user_data doc_types language k → In k question_keys →
  ∃ v, (k = "zip_code" ∨ k = "gig_method" → v = AStr (answer k))
       ∧ interview float_of_str (S turns) answer doc_types language user_data
         = (trace ← interview float_of_str turns answer doc_types language
                      (<[k := v]> user_data);
            Ok (Some k :: trace)).
Proof.
  intros (q & G & <-) I.
  destruct (accepted_stored _ I) as (V & v & P & Sv).
  exists v. split; [exact Sv|].
  simpl. rewrite G. simpl. rewrite V, P. reflexivity.
Qed.

(** The last turn. *)
Lemma interview_end (turns : nat) (user_data : gmap string answer_value) :
  get_next_question user_data doc_types language = Ok None →
  interview float_of_str (S turns) answer doc_types language user_data
  = Ok [ None ].
Proof. intros G. simpl. now rewrite G. Qed.

(** The gig block does not look at [state_specific]. *)
Lemma gig_done_insert_state (user_data : gmap string answer_value)
    (v : answer_value) :
  gig_done user_data doc_types language →
  gig_done (<["state_specific" := v]> user_data) doc_types language.
Proof.
  unfold gig_done. destruct (any_1099 doc_types); [|auto].
  unfold gig_questions, expense_questions, ask_expenses.
  rewrite !has_insert_ne by discriminate.
  rewrite !lookup_insert_ne by discriminate. auto.
Qed.

(** After the gig block: [state_specific] if the ZIP code asks for it, then
    the end. *)
Lemma interview_state_part (turns : nat) (user_data : gmap string answer_value) :
  has "filing_status" user_data = true →
  has "dependents" user_data = true →
  has "zip_code" user_data = true →
  gig_done user_data doc_types language →
  user_data !! "zip_code" = Some (AStr (answer "zip_code")) →
  has "state_specific" user_data = false →
  interview float_of_str (S (S turns)) answer doc_types language user_data
  = Ok (map Some (state_part answer) ++ [ None ]).
Proof.
  intros F D Z G L St.
  assert (N : ∀ ud, has "filing_status" ud = true → has "dependents" ud = true →
                has "zip_code" ud = true → gig_done ud doc_types language →
                ud !! "zip_code" = Some (AStr (answer "zip_code")) →
                get_next_question ud doc_types language
                = if (startswith (answer "zip_code") "9"
                      || startswith (answer "zip_code") "8")
                     && negb (has "state_specific" ud)
                  then plain_question language "state_specific" "state_specific" "yes_no"
                  else Ok None).
  { intros ud F' D' Z' G' L'. unfold get_next_question.
    rewrite F', D', Z'. cbn [negb]. unfold gig_done in G'. rewrite G'.
    unfold zip_starts_9_or_8. rewrite L'. reflexivity. }
  unfold state_part.
  destruct (startswith (answer "zip_code") "9" || startswith (answer "zip_code") "8")
    eqn:CA.
  - assert (A : asks user_data doc_types language "state_specific").
    { unfold asks. rewrite (N _ F D Z G L), St. cbn [negb andb].
      apply plain_question_asks. simpl. tauto. }
    destruct (interview_turn (S turns) _ _ A) as (v & _ & ->); [simpl; tauto|].
    rewrite interview_end; [reflexivity|].
    rewrite N.
    + rewrite has_insert_eq. reflexivity.
    + now rewrite has_insert_ne.
    + now rewrite has_insert_ne.
    + now rewrite has_insert_ne.
    + now apply gig_done_insert_state.
    + now rewrite lookup_insert_ne.
  - apply interview_end. rewrite (N _ F D Z G L). reflexivity.
Qed.

Ltac kb_simpl :=
  repeat first
    [ rewrite has_insert_eq
    | rewrite lookup_insert_eq
    | rewrite has_insert_ne by discriminate
    | rewrite lookup_insert_ne by discriminate ].

(** [get_next_question] once the three basic questions are answered. *)
Lemma get_next_question_after_basics (user_data : gmap string answer_value) :
  has "filing_status" user_data = true →
  has "dependents" user_data = true →
  has "zip_code" user_data = true →
  any_1099 doc_types = true →
  ∀ q, gig_questions user_data language = Ok (Some q) →
       get_next_question user_data doc_types language = Ok (Some q).
Proof.
  intros F D Z A q G. unfold get_next_question.
  rewrite F, D, Z, A, G. reflexivity.
Qed.

Lemma asks_gig (user_data : gmap string answer_value) (k : string) :
  has "filing_status" user_data = true →
  has "dependents" user_data = true →
  has "zip_code" user_data = true →
  any_1099 doc_types = true →
  (∃ q, gig_questions user_data language = Ok (Some q) ∧ key q = k) →
  asks user_data doc_types language k.
Proof.
  intros F D Z A (q & G & K). exists q. split; [|exact K].
  now apply get_next_question_after_basics.
Qed.

(** The gig block, then what follows it. *)
Lemma interview_gig_part (turns : nat) (user_data : gmap string answer_value) :
  has "filing_status" user_data = true →
  has "dependents" user_data = true →
  has "zip_code" user_data = true →
  user_data !! "zip_code" = Some (AStr (answer "zip_code")) →
  has "gig_method" user_data = false →
  has "miles" user_data = false →
  has "phone_percent" user_data = false →
  has "home_office_sqft" user_data = false →
  has "state_specific" user_data = false →
  interview float_of_str (5 + turns) answer doc_types language user_data
  = Ok (map Some (gig_part doc_types answer ++ state_part answer) ++ [ None ]).
Proof.
  intros F D Z L G M P H St. unfold gig_part.
  destruct (any_1099 doc_types) eqn:A.
  2:{ change (5 + turns)%nat with (S (S (3 + turns))).
      apply interview_state_part; try assumption.
      unfold gig_done. now rewrite A. }
  (* gig_method *)
  assert (A1 : asks user_data doc_types language "gig_method").
  { apply asks_gig; try assumption. unfold gig_questions. rewrite G.
    apply choice_question_asks. simpl. tauto. }
  change (5 + turns)%nat with (S (4 + turns)).
  destruct (interview_turn (4 + turns) _ _ A1) as (v & V & ->); [simpl; tauto|].
  rewrite V by tauto. clear v V A1.
  set (g := answer "gig_method").
  set (ud1 := <["gig_method" := AStr g]> user_data).
  destruct (String.eqb g "Standard Mileage Rate") eqn:SMR.
  { (* miles *)
    assert (A2 : asks ud1 doc_types language "miles").
    { apply asks_gig; unfold ud1; kb_simpl; try assumption.
      unfold gig_questions. kb_simpl. cbn [eq_str negb]. rewrite SMR, M.
      apply plain_question_asks. simpl. tauto. }
    change (4 + turns)%nat with (S (3 + turns)).
    destruct (interview_turn (3 + turns) _ _ A2) as (v & _ & ->); [simpl; tauto|].
    change (3 + turns)%nat with (S (S (S turns))).
    rewrite (interview_state_part (S turns)); unfold ud1; kb_simpl;
      try assumption; try reflexivity.
    unfold gig_done, gig_questions. rewrite A. kb_simpl.
    cbn [eq_str negb]. now rewrite SMR. }
  destruct (String.eqb g "Actual Expenses") eqn:AE.
  { (* phone_percent, home_office_sqft *)
    assert (A2 : asks ud1 doc_types language "phone_percent").
    { apply asks_gig; unfold ud1; kb_simpl; try assumption.
      unfold gig_questions, expense_questions, ask_expenses. kb_simpl.
      cbn [eq_str negb]. rewrite SMR, AE, P.
      apply plain_question_asks. simpl. tauto. }
    change (4 + turns)%nat with (S (3 + turns)).
    destruct (interview_turn (3 + turns) _ _ A2) as (v & _ & ->); [simpl; tauto|].
    set (ud2 := <["phone_percent" := v]> ud1).
    assert (A3 : asks ud2 doc_types language "home_office_sqft").
    { apply asks_gig; unfold ud2, ud1; kb_simpl; try assumption.
      unfold gig_questions, expense_questions, ask_expenses. kb_simpl.
      cbn [eq_str negb]. rewrite SMR, AE, H.
      apply plain_question_asks. simpl. tauto. }
    change (3 + turns)%nat with (S (2 + turns)).
    destruct (interview_turn (2 + turns) _ _ A3) as (w & _ & ->); [simpl; tauto|].
    change (2 + turns)%nat with (S (S turns)).
    rewrite (interview_state_part turns); unfold ud2, ud1; kb_simpl;
      try assumption; try reflexivity.
    unfold gig_done, gig_questions, expense_questions, ask_expenses.
    rewrite A. kb_simpl. cbn [eq_str negb]. now rewrite SMR, AE. }
  (* any other method: no follow-up *)
  change (4 + turns)%nat with (S (S (2 + turns))).
  rewrite (interview_state_part (2 + turns)); unfold ud1; kb_simpl;
    try assumption; try reflexivity.
  unfold gig_done, gig_questions. rewrite A. kb_simpl.
  cbn [eq_str negb]. now rewrite SMR, AE.
Qed.

(** From the empty knowledge base: the three basic questions, the gig
    block, [state_specific], the end. *)
Lemma interview_from_empty (turns : nat) :
  interview float_of_str (8 + turns) answer doc_types language ∅
  = Ok (map Some (priority_order doc_types answer) ++ [ None ]).
Proof.
  assert (A1 : asks ∅ doc_types language "filing_status").
  { unfold asks, get_next_question. rewrite has_empty. cbn [negb].
    apply choice_question_asks. simpl. tauto. }
  change (8 + turns)%nat with (S (7 + turns)).
  destruct (interview_turn (7 + turns) _ _ A1) as (v1 & _ & ->); [simpl; tauto|].
  set (ud1 := <["filing_status" := v1]> ∅).
  assert (A2 : asks ud1 doc_types language "dependents").
  { unfold asks, get_next_question, ud1. kb_simpl. rewrite has_empty. cbn [negb].
    apply plain_question_asks. simpl. tauto. }
  change (7 + turns)%nat with (S (6 + turns)).
  destruct (interview_turn (6 + turns) _ _ A2) as (v2 & _ & ->); [simpl; tauto|].
  set (ud2 := <["dependents" := v2]> ud1).
  assert (A3 : asks ud2 doc_types language "zip_code").
  { unfold asks, get_next_question, ud2, ud1. kb_simpl. rewrite has_empty.
    cbn [negb]. apply plain_question_asks. simpl. tauto. }
  change (6 + turns)%nat with (S (5 + turns)).
  destruct (interview_turn (5 + turns) _ _ A3) as (v3 & V & ->); [simpl; tauto|].
  rewrite V by tauto.
  rewrite interview_gig_part; unfold ud2, ud1; kb_simpl;
    try apply has_empty; try reflexivity.
Qed.

End Interview.



(* ================================================================== *)
(** * Extraction *)
(* ================================================================== *)

(** C3 fails on the code: [extract_w2_data] and [extract_1099_data] assign
    the result of [extract_ssn] and [extract_ein] without looking at it, so a
    number that is not found is bound to None.  On a W-2 without a social
    security number the record has the key [ssn], bound to None; the
    receipt path, and the amounts, leave out what is not found. *)
Theorem C3_ssn_bound_to_None_when_absent :
  extract_ssn w2_text_without_ssn = None
  ∧ extract_data w2_text_without_ssn "w2"
    = {[ "ssn" := VNone; "wages_tips_other_comp" := VNum 50000.00 ]}
  ∧ extract_data EmptyString "w2" = {[ "ssn" := VNone ]}
  ∧ extract_data EmptyString "1099-nec" = {[ "ssn" := VNone; "ein" := VNone ]}
  ∧ extract_data EmptyString "receipt" = ∅.
Proof. repeat split; vm_compute; reflexivity. Qed.

(* ================================================================== *)
(** * Classification *)
(* ================================================================== *)

Section Classification.

(** [max_by] returns the first element whose key is the largest. *)
Lemma fold_max_first {A} (key : A → nat) (rest : list A) (x : A) :
  let m := fold_left (λ best y, if (key best <? key y)%nat then y else best)
             rest x in
  ∃ i, (x :: rest) !! i = Some m
       ∧ (∀ j y, (x :: rest) !! j = Some y → (key y <= key m)%nat)
       ∧ (∀ j y, (j < i)%nat → (x :: rest) !! j = Some y → (key y < key m)%nat).
Proof.
  induction rest as [|z rest IH] using rev_ind; cbn zeta.
  - exists 0%nat. simpl. repeat split.
    + intros [|j] y; simpl; [intros [= ->]; lia | discriminate].
    + intros j y L. lia.
  - rewrite fold_left_app. simpl.
    destruct IH as (i & Hi & Hmax & Hfirst).
    set (m := fold_left _ rest x) in *.
    assert (Li : (i < List.length (x :: rest))%nat) by (eapply lookup_lt_Some; eauto).
    destruct (Nat.ltb_spec (key m) (key z)) as [Lt|Ge].
    + exists (List.length (x :: rest)). repeat split.
      * change (x :: rest ++ [z]) with ((x :: rest) ++ [z]).
        rewrite lookup_app_r by lia. now rewrite Nat.sub_diag.
      * intros j y. change (x :: rest ++ [z]) with ((x :: rest) ++ [z]).
        intros L. apply lookup_app_Some in L as [L|[_ L]].
        -- specialize (Hmax _ _ L). lia.
        -- destruct (j - List.length (x :: rest))%nat; [|destruct n; discriminate].
           injection L as ->. lia.
      * intros j y Lj. change (x :: rest ++ [z]) with ((x :: rest) ++ [z]).
        rewrite lookup_app_l by exact Lj. intros L. specialize (Hmax _ _ L). lia.
    + exists i. repeat split.
      * change (x :: rest ++ [z]) with ((x :: rest) ++ [z]).
        now rewrite lookup_app_l.
      * intros j y. change (x :: rest ++ [z]) with ((x :: rest) ++ [z]).
        intros L. apply lookup_app_Some in L as [L|[_ L]].
        -- eauto.
        -- destruct (j - List.length (x :: rest))%nat; [|destruct n; discriminate].
           injection L as ->. lia.
      * intros j y Lj. change (x :: rest ++ [z]) with ((x :: rest) ++ [z]).
        rewrite lookup_app_l by lia. eauto.
Qed.

Lemma max_by_first {A} (key : A → nat) (xs : list A) (m : A) :
  max_by key xs = Ok m →
  ∃ i, xs !! i = Some m
       ∧ (∀ j y, xs !! j = Some y → (key y <= key m)%nat)
       ∧ (∀ j y, (j < i)%nat → xs !! j = Some y → (key y < key m)%nat).
Proof.
  destruct xs as [|x rest]; simpl; [discriminate|].
  intros [= <-]. apply fold_max_first.
Qed.

Lemma count_matches_filter (text_lower : string) (kws : list string) :
  count_matches text_lower kws
  = List.length (filter (λ kw, contains (lower kw) text_lower = true) kws).
Proof.
  unfold count_matches.
  assert (G : ∀ n, fold_left
                (λ score keyword,
                   if contains (lower keyword) text_lower then S score else score)
                kws n
              = (n + List.length (filter (λ kw, contains (lower kw) text_lower = true) kws))%nat).
  { induction kws as [|kw kws IH]; intros n; simpl; [lia|].
    rewrite IH, filter_cons.
    destruct (contains (lower kw) text_lower) eqn:C.
    - rewrite decide_True by reflexivity. simpl. lia.
    - rewrite decide_False by congruence. reflexivity. }
  apply G.
Qed.

(** The marker phrases are written in lower case. *)
Lemma keywords_lower_case :
  Forall (λ '(_, kws), Forall (λ kw, lower kw = kw) kws) keywords.
Proof. repeat constructor. Qed.

Lemma filter_lower (text_lower : string) (kws : list string) :
  Forall (λ kw, lower kw = kw) kws →
  filter (λ kw, contains (lower kw) text_lower = true) kws
  = filter (λ kw, contains kw text_lower = true) kws.
Proof.
  induction 1 as [|kw kws E _ IH]; [reflexivity|].
  rewrite !filter_cons, IH, E. reflexivity.
Qed.

Lemma count_matches_score (text : string) (entry : string * list string) :
  In entry keywords → count_matches (lower text) entry.2 = score text entry.2.
Proof.
  intros I. rewrite count_matches_filter. unfold score. f_equal.
  apply filter_lower.
  pose proof keywords_lower_case as L. rewrite Forall_forall in L.
  apply list_elem_of_In in I. specialize (L _ I). now destruct entry.
Qed.

Lemma scores_of_lookup (text : string) (i : nat) (t : string) (n : nat) :
  scores_of (lower text) !! i = Some (t, n) →
  ∃ kws, keywords !! i = Some (t, kws) ∧ n = score text kws.
Proof.
  unfold scores_of. rewrite list_lookup_fmap.
  destruct (keywords !! i) as [[t' kws]|] eqn:K; simpl; [|discriminate].
  intros [= -> <-]. exists kws. split; [reflexivity|].
  apply (count_matches_score text (t, kws)).
  apply list_elem_of_In. eapply list_elem_of_lookup_2. exact K.
Qed.

Lemma scores_of_lookup_keywords (text : string) (j : nat) (t : string)
    (kws : list string) :
  keywords !! j = Some (t, kws) →
  scores_of (lower text) !! j = Some (t, score text kws).
Proof.
  intros K. unfold scores_of. rewrite list_lookup_fmap, K. simpl.
  f_equal. f_equal. apply (count_matches_score text (t, kws)).
  apply list_elem_of_In. eapply list_elem_of_lookup_2. exact K.
Qed.

(** [classify_document] never raises: the table of scores is not empty. *)
Lemma classify_document_returns (text : string) :
  returns (classify_document text).
Proof.
  unfold classify_document, scores_of, keywords. simpl.
  match goal with |- context [if ?b then _ else _] => destruct b end;
    eexists; reflexivity.
Qed.

(** What [classify_document] computes: the first type of the largest score,
    and other when that score is 0. *)
Lemma classify_document_first_best (text : string) :
  ∃ i t kws,
    keywords !! i = Some (t, kws)
    ∧ classify_document text
      = Ok (if (score text kws =? 0)%nat then "other" else t)
    ∧ (∀ j t' kws', keywords !! j = Some (t', kws') →
         (score text kws' <= score text kws)%nat)
    ∧ (∀ j t' kws', (j < i)%nat → keywords !! j = Some (t', kws') →
         (score text kws' < score text kws)%nat).
Proof.
  unfold classify_document.
  destruct (max_by snd (scores_of (lower text))) as [[t n]|e] eqn:M.
  2:{ discriminate M. }
  destruct (max_by_first _ _ _ M) as (i & Li & Hmax & Hfirst).
  destruct (scores_of_lookup _ _ _ _ Li) as (kws & K & ->).
  exists i, t, kws. split; [exact K|]. split.
  { simpl. now destruct (score text kws =? 0)%nat. }
  split.
  - intros j t' kws' K'.
    apply (Hmax j (t', score text kws')). now apply scores_of_lookup_keywords.
  - intros j t' kws' Lj K'.
    apply (Hfirst j (t', score text kws') Lj). now apply scores_of_lookup_keywords.
Qed.



End Classification.



(* ================================================================== *)
(** * Federal tax: the brackets *)
(* ================================================================== *)

Section Brackets.

Lemma min_width_cap (x lo : Q) (hi : bound) : min_width x lo hi == cap x hi - lo.
Proof.
  destruct hi as [h|]; simpl; [|reflexivity].
  unfold Qminus. apply Q.plus_min_distr_r.
Qed.

(** Past the income, an ascending table contributes nothing. *)
Lemma bracket_sum_above (brackets : list bracket) (lo income : Q) :
  ascending lo brackets → income <= lo → bracket_sum brackets income == 0.
Proof.
  revert lo. induction brackets as [|[[lower upper] rate] brackets IH];
    intros lo A L; simpl; [reflexivity|].
  destruct A as [A1 A2].
  destruct (Qlt_le_dec lower income) as [Lt|Ge]; [lra|].
  rewrite (IH lower A2 Ge). ring.
Qed.

(** On an ascending table, leaving the loop at the first bracket that lies
    above the income adds up the same amounts as going through all of
    them. *)
Lemma bracket_loop_sum (brackets : list bracket) (lo income acc : Q) :
  ascending lo brackets →
  bracket_loop brackets income acc == acc + bracket_sum brackets income.
Proof.
  revert lo acc. induction brackets as [|[[lower upper] rate] brackets IH];
    intros lo acc A; simpl; [ring|].
  destruct A as [A1 A2].
  destruct (Qlt_le_dec lower income) as [Lt|Ge].
  - rewrite (IH lower _ A2), min_width_cap. ring.
  - rewrite (bracket_sum_above brackets lower income A2 Ge). ring.
Qed.

Lemma federal_brackets_ascending (fs : string) (brackets : list bracket) :
  assoc fs federal_brackets = Some brackets → ascending 0 brackets.
Proof.
  unfold federal_brackets. cbn [assoc].
  destruct (String.eqb "single" fs);
    [|destruct (String.eqb "married_filing_jointly" fs); [|discriminate]];
    intros [= <-]; simpl; repeat split; unfold Qle; simpl; lia.
Qed.

Lemma dollars_cents_mult (x rate : Q) : dollars x → cents rate → cents (x * rate).
Proof.
  intros [a Ha] [c Hc]. exists (a * c)%Z. rewrite Ha, Hc.
  unfold Qeq, Qmult, inject_Z. simpl. lia.
Qed.

Lemma dollars_minus (x y : Q) : dollars x → dollars y → dollars (x - y).
Proof.
  intros [a Ha] [b Hb]. exists (a - b)%Z. rewrite Ha, Hb.
  unfold Qeq, Qminus, Qplus, Qopp, inject_Z. simpl. lia.
Qed.

Lemma dollars_cap (x : Q) (hi : bound) :
  dollars x → match hi with Fin h => dollars h | Inf => True end →
  dollars (cap x hi).
Proof.
  intros [a Ha] H. destruct hi as [h|]; simpl; [|now exists a].
  destruct H as [b Hb].
  destruct (Q.min_dec x h) as [E|E]; [exists a | exists b]; now rewrite E.
Qed.

Lemma bracket_sum_cents (brackets : list bracket) (income : Q) :
  Forall whole_bracket brackets → dollars income →
  cents (bracket_sum brackets income).
Proof.
  intros W D.
  induction W as [|[[lower upper] rate] brackets (Wl & Wu & Wr) _ IH]; simpl.
  - apply cents_zero.
  - apply cents_plus; [|exact IH].
    destruct (Qlt_le_dec lower income); [|apply cents_zero].
    apply dollars_cents_mult; [|exact Wr].
    apply dollars_minus; [|exact Wl]. now apply dollars_cap.
Qed.

Lemma dollars_literal (z : Z) : dollars (z # 1).
Proof. exists z. reflexivity. Qed.

Lemma cents_literal (z : Z) : cents (z # 100).
Proof. exists z. reflexivity. Qed.

Lemma federal_brackets_whole (fs : string) (brackets : list bracket) :
  assoc fs federal_brackets = Some brackets → Forall whole_bracket brackets.
Proof.
  unfold federal_brackets. cbn [assoc].
  destruct (String.eqb "single" fs);
    [|destruct (String.eqb "married_filing_jointly" fs); [|discriminate]];
    intros [= <-];
    repeat (constructor;
            [repeat split; auto using dollars_literal, cents_literal|]);
    constructor.
Qed.


End Brackets.



(* ================================================================== *)
(** * Federal tax: refund and amount due *)
(* ================================================================== *)

Section Refund.

Lemma round2_is_cents (x : Q) : cents (round2 x).
Proof. unfold round2. apply cents_literal. Qed.

Lemma cents_minus (x y : Q) : cents x → cents y → cents (x - y).
Proof.
  intros [a Ha] [b Hb]. exists (a - b)%Z. rewrite Ha, Hb.
  unfold Qeq, Qminus, Qplus, Qopp. simpl. lia.
Qed.

(** The fields of the result of [calculate_federal_tax], from the totals of
    the W-2 loop. *)
Lemma calculate_federal_tax_fields (input : tax_input) (r : federal_result) :
  calculate_federal_tax input = Ok r →
  (∃ x, tax_owed r = round2 x)
  ∧ ((tax_owed r < withheld r
      ∧ refund r = round2 (withheld r - tax_owed r) ∧ amount_due r = round2 0)
     ∨ (withheld r <= tax_owed r
        ∧ refund r = round2 0 ∧ amount_due r = round2 (tax_owed r - withheld r))).
Proof.
  unfold calculate_federal_tax.
  destruct (w2_totals _ 0 0) as [[wages wh]|e]; simpl; [|discriminate].
  destruct (Qlt_le_dec _ wh) as [Lt|Ge]; intros [= <-]; simpl;
    (split; [eexists; reflexivity|]); [left | right]; auto.
Qed.


End Refund.



(** The record of a W-2 always has the key [ssn], whatever was found. *)
Lemma box_name_not_ssn (box_num : nat) (name : string) :
  box_name box_num box_mappings = Some name → name ≠ "ssn".
Proof.
  unfold box_mappings. cbn [box_name].
  repeat match goal with
         | |- context [(?n =? box_num)%nat] => destruct (n =? box_num)%nat
         end;
    intros [= <-]; discriminate.
Qed.

Lemma extract_w2_data_ssn (text : string) :
  extract_w2_data text !! "ssn" = Some (of_optional (extract_ssn text)).
Proof.
  unfold extract_w2_data.
  generalize (imap (λ i v, (i, v)) (take 6 (extract_currency_values text))).
  assert (G : ∀ (l : list (nat * Q)) (d : gmap string value) o,
             d !! "ssn" = o →
             fold_left
               (λ (data : gmap string value) '(i, v),
                  match box_name (i + 1) box_mappings with
                  | Some name => <[name := VNum v]> data
                  | None => data
                  end) l d !! "ssn" = o).
  { induction l as [|[i v] l IH]; intros d o H; cbn [fold_left]; [exact H|].
    apply IH. destruct (box_name (i + 1) box_mappings) as [name|] eqn:B; [|exact H].
    rewrite lookup_insert_ne; [exact H|]. now apply box_name_not_ssn in B. }
  intros l. apply G. apply lookup_insert_eq.
Qed.

Lemma extract_1099_data_ssn_ein (text : string) :
  extract_1099_data text !! "ssn" = Some (of_optional (extract_ssn text))
  ∧ extract_1099_data text !! "ein" = Some (of_optional (extract_ein text)).
Proof.
  unfold extract_1099_data.
  destruct (extract_currency_values text !! 0%nat),
           (extract_currency_values text !! 1%nat);
    split; simplify_map_eq; reflexivity.
Qed.

(** The currency values come in the order of the text, commas removed. *)
Example extract_currency_values_order :
  extract_currency_values "$1,234.56 and $10.00" = [ 1234.56; 10.00 ].
Proof. reflexivity. Qed.

(** The receipt path leaves out what it does not find. *)
Example extract_receipt_data_omits : extract_data "thank you" "receipt" = ∅.
Proof. reflexivity. Qed.

(* ================================================================== *)
(** * Further checks of the questionnaire and of the calculator *)
(* ================================================================== *)

Example validate_phone_percent_150 :
  validate_answer float_of_plain "phone_percent" "150"
  = (false, "Percentage must be between 0 and 100").
Proof. reflexivity. Qed.

Example validate_phone_percent_42 :
  validate_answer float_of_plain "phone_percent" "42" = (true, EmptyString).
Proof. reflexivity. Qed.

(** A number that is not a number passes [validate_answer] for
    [dependents], and [process_answer] cannot store it: this is why the
    answers of an interview are required to be accepted, not only valid. *)
Example dependents_nan_valid_not_stored :
  validate_answer float_of_plain "dependents" "nan" = (true, EmptyString)
  ∧ process_answer float_of_plain "dependents" "nan" ∅ = Raise ValueError.
Proof. split; reflexivity. Qed.

(** The questionnaire has no prompts in Russian. *)
Example get_next_question_ru : get_next_question ∅ [] "ru" = Raise KeyError.
Proof. reflexivity. Qed.

(** [calculate_federal_tax] returns whenever the W-2 amounts it adds up are
    numbers. *)
Lemma w2_totals_returns (docs : list (string * doc_data)) :
  Forall numeric_w2 docs →
  ∀ total_wages total_withheld,
    returns (w2_totals docs total_wages total_withheld).
Proof.
  induction 1 as [|[doc_type doc] docs N _ IH]; intros tw th; simpl.
  - eexists. reflexivity.
  - destruct (String.eqb doc_type "w2"); [|apply IH].
    destruct (data doc) as [d|] eqn:D; [|apply IH].
    destruct (N d D) as [N1 N2]. unfold numeric_field in N1, N2.
    unfold add_field.
    destruct (d !! "wages_tips_other_comp") as [v|];
      [destruct N1 as [q ->]|];
      (destruct (d !! "federal_income_tax_withheld") as [w|];
       [destruct N2 as [q' ->]|]); simpl; apply IH.
Qed.

Lemma calculate_federal_tax_returns (input : tax_input) :
  Forall numeric_w2 (default [] (extracted_data input)) →
  returns (calculate_federal_tax input).
Proof.
  intros N. unfold calculate_federal_tax.
  destruct (w2_totals_returns _ N 0 0) as [[tw th] ->]. simpl.
  destruct (Qlt_le_dec _ th); eexists; reflexivity.
Qed.

(* ================================================================== *)
(** * More on rounding *)
(* ================================================================== *)

Section RoundingOrder.

Lemma round_half_even_floor (x : Q) :
  (Qfloor x <= round_half_even x <= Qfloor x + 1)%Z.
Proof.
  unfold round_half_even.
  destruct (x - inject_Z (Qfloor x) ?= 1 # 2); [destruct (Z.even _)| |]; lia.
Qed.

(** Rounding keeps the order. *)
Lemma round_half_even_le (x y : Q) :
  x <= y → (round_half_even x <= round_half_even y)%Z.
Proof.
  intros L. pose proof (Qfloor_resp_le _ _ L) as F.
  destruct (Z.eq_dec (Qfloor x) (Qfloor y)) as [E|N].
  - unfold round_half_even. rewrite E.
    destruct (x - inject_Z (Qfloor y) ?= 1 # 2) eqn:Cx;
      destruct (y - inject_Z (Qfloor y) ?= 1 # 2) eqn:Cy;
      try destruct (Z.even (Qfloor y)); try lia;
      repeat match goal with
             | H : (_ ?= _) = Eq |- _ => apply Qeq_alt in H
             | H : (_ ?= _) = Lt |- _ => apply Qlt_alt in H
             | H : (_ ?= _) = Gt |- _ => apply Qgt_alt in H
             end; lra.
  - pose proof (round_half_even_floor x). pose proof (round_half_even_floor y).
    lia.
Qed.

Lemma round2_le (x y : Q) : x <= y → round2 x <= round2 y.
Proof.
  intros L. unfold round2, Qle. simpl.
  assert (round_half_even (x * 100) <= round_half_even (y * 100))%Z
    by (apply round_half_even_le; lra).
  lia.
Qed.

End RoundingOrder.

(* ================================================================== *)
(** * The bracket tables as a whole *)
(* ================================================================== *)

Section Tables.

(** The table that [_calculate_progressive_tax] uses is one of the two. *)
Lemma get_or_federal_brackets (fs : answer_value) :
  get_or federal_brackets fs single_brackets = single_brackets
  ∨ get_or federal_brackets fs single_brackets = married_filing_jointly_brackets.
Proof.
  destruct fs as [z|x|s]; try (now left).
  unfold get_or, federal_brackets. cbn [assoc].
  destruct (String.eqb "single" s); [now left|].
  destruct (String.eqb "married_filing_jointly" s); [now right | now left].
Qed.

Lemma contiguous_ascending (lo : Q) (brackets : list bracket) :
  contiguous lo brackets → ascending lo brackets.
Proof.
  revert lo. induction brackets as [|[[lower upper] rate] brackets IH];
    intros lo C; simpl in *; [exact I|].
  destruct C as [E C]. split; [lra|].
  destruct upper as [h|].
  - destruct C as [L C]. specialize (IH h C).
    destruct brackets as [|[[l u] r] bs]; [exact I|].
    simpl in *. destruct C as [E' _]. destruct IH as [_ IH]. split; [lra|exact IH].
  - subst brackets. exact I.
Qed.

Lemma tables_contiguous :
  contiguous 0 single_brackets ∧ contiguous 0 married_filing_jointly_brackets.
Proof. split; simpl; repeat split; try reflexivity; unfold Qle; simpl; lia. Qed.

Lemma tables_rates :
  rates_between 0.10 0.37 single_brackets
  ∧ rates_between 0.10 0.37 married_filing_jointly_brackets.
Proof.
  split; repeat constructor; unfold Qle; simpl; lia.
Qed.

Lemma tables_proper :
  Forall proper_bracket single_brackets
  ∧ Forall proper_bracket married_filing_jointly_brackets.
Proof.
  split; repeat constructor; unfold Qle; simpl; lia.
Qed.

Lemma table_in_use (fs : answer_value) :
  let brackets := get_or federal_brackets fs single_brackets in
  contiguous 0 brackets ∧ rates_between 0.10 0.37 brackets
  ∧ Forall proper_bracket brackets.
Proof.
  cbn zeta. destruct (get_or_federal_brackets fs) as [-> | ->];
    repeat split;
    first [ apply tables_contiguous | apply tables_rates | apply tables_proper ].
Qed.

(** What [_calculate_progressive_tax] returns, whatever the filing status:
    the rounded sum over the table in use. *)
Lemma progressive_tax_rounded_sum (income : Q) (fs : answer_value) :
  _calculate_progressive_tax income fs
  = round2 (bracket_sum (get_or federal_brackets fs single_brackets) income).
Proof.
  unfold _calculate_progressive_tax. apply round2_comp.
  rewrite (bracket_loop_sum _ 0).
  - ring.
  - apply contiguous_ascending. apply table_in_use.
Qed.

Lemma cap_le (x y : Q) (upper : bound) : x <= y → cap x upper <= cap y upper.
Proof.
  intros L. destruct upper as [h|]; simpl; [|exact L].
  now apply Q.min_le_compat_r.
Qed.

Lemma cap_above (lower x : Q) (upper : bound) :
  match upper with Fin h => lower <= h | Inf => True end →
  lower <= x → lower <= cap x upper.
Proof.
  intros U L. destruct upper as [h|]; simpl; [|exact L].
  now apply Q.min_glb.
Qed.

Lemma bracket_sum_nonneg (brackets : list bracket) (income : Q) :
  Forall proper_bracket brackets → 0 <= bracket_sum brackets income.
Proof.
  induction 1 as [|[[lower upper] rate] brackets [U R] _ IH]; simpl; [lra|].
  destruct (Qlt_le_dec lower income) as [Lt|Ge]; [|lra].
  assert (lower <= cap income upper) by (apply cap_above; [exact U | lra]).
  assert (0 <= (cap income upper - lower) * rate)
    by (apply Qmult_le_0_compat; lra).
  lra.
Qed.

(** A larger income never lowers the sum over the brackets. *)
Lemma bracket_sum_le (brackets : list bracket) (x y : Q) :
  Forall proper_bracket brackets → x <= y →
  bracket_sum brackets x <= bracket_sum brackets y.
Proof.
  intros P L.
  induction P as [|[[lower upper] rate] brackets [U R] _ IH]; simpl; [lra|].
  assert (T : (if Qlt_le_dec lower x then (cap x upper - lower) * rate else 0)
              <= (if Qlt_le_dec lower y then (cap y upper - lower) * rate else 0)).
  { destruct (Qlt_le_dec lower x) as [Lx|Gx];
      destruct (Qlt_le_dec lower y) as [Ly|Gy]; try lra.
    - apply Qmult_le_compat_r; [|exact R].
      pose proof (cap_le x y upper L). lra.
    - apply Qmult_le_0_compat; [|exact R].
      assert (lower <= cap y upper) by (apply cap_above; [exact U | lra]). lra. }
  lra.
Qed.

(** On a table without gap or overlap, the slices taxed add up to the income
    above the start of the table, so that the sum lies between the lowest
    and the highest rate applied to it. *)
Lemma bracket_sum_between (rmin rmax : Q) (brackets : list bracket)
    (lo income : Q) :
  contiguous lo brackets → rates_between rmin rmax brackets →
  lo <= income →
  rmin * (income - lo) <= bracket_sum brackets income
  ∧ bracket_sum brackets income <= rmax * (income - lo).
Proof.
  revert lo. induction brackets as [|[[lower upper] rate] brackets IH];
    intros lo C R L; simpl in *; [contradiction|].
  destruct C as [E C]. apply Forall_cons in R as [[R1 R2] R].
  destruct upper as [h|].
  - destruct C as [Lh C].
    destruct (Qlt_le_dec lower income) as [Lt|Ge].
    + destruct (Qlt_le_dec income h) as [Below|Above].
      * rewrite (bracket_sum_above brackets h income)
          by (try apply contiguous_ascending; try assumption; lra).
        simpl. rewrite Q.min_l by lra.
        assert (0 <= income - lower) by lra.
        assert (rmin * (income - lower) <= rate * (income - lower))
          by (apply Qmult_le_compat_r; lra).
        assert (rate * (income - lower) <= rmax * (income - lower))
          by (apply Qmult_le_compat_r; lra).
        rewrite E in *. split; lra.
      * destruct (IH h C R Above) as [I1 I2].
        simpl. rewrite Q.min_r by lra.
        assert (0 <= h - lower) by lra.
        assert (rmin * (h - lower) <= rate * (h - lower))
          by (apply Qmult_le_compat_r; lra).
        assert (rate * (h - lower) <= rmax * (h - lower))
          by (apply Qmult_le_compat_r; lra).
        rewrite E in *. split; lra.
    + rewrite (bracket_sum_above brackets h income)
        by (try apply contiguous_ascending; try assumption; lra).
      assert (Z : income - lo == 0) by lra. rewrite Z. split; lra.
  - subst brackets. simpl.
    destruct (Qlt_le_dec lower income) as [Lt|Ge].
    + assert (0 <= income - lower) by lra.
      assert (rmin * (income - lower) <= rate * (income - lower))
        by (apply Qmult_le_compat_r; lra).
      assert (rate * (income - lower) <= rmax * (income - lower))
        by (apply Qmult_le_compat_r; lra).
      rewrite E in *. split; lra.
    + assert (Z : income - lo == 0) by lra. rewrite Z. split; lra.
Qed.

(** X1: the federal tax computed by [_calculate_progressive_tax] is never
    negative, and a larger taxable income never gives a smaller tax, for
    every filing status (known or not). *)
Theorem X1_progressive_tax_monotone (fs : answer_value) (x y : Q) :
  x <= y →
  0 <= _calculate_progressive_tax x fs
  ∧ _calculate_progressive_tax x fs <= _calculate_progressive_tax y fs.
Proof.
  intros L. rewrite !progressive_tax_rounded_sum.
  destruct (table_in_use fs) as (_ & _ & P). split.
  - apply round2_nonneg. now apply bracket_sum_nonneg.
  - apply round2_le. now apply bracket_sum_le.
Qed.


End Tables.

Lemma X1_progressive_tax_monotone_witness :
  _calculate_progressive_tax 46150 (AStr "single")
  <= _calculate_progressive_tax 50000 (AStr "single").
Proof.
  apply (X1_progressive_tax_monotone (AStr "single") 46150 50000).
  unfold Qle. simpl. lia.
Defined.


(* ================================================================== *)
(** * Which records the calculator reads *)
(* ================================================================== *)

Section RecordsRead.

Lemma w2_totals_filter (docs : list (string * doc_data)) (tw th : Q) :
  w2_totals (filter (λ e, e.1 = "w2") docs) tw th = w2_totals docs tw th.
Proof.
  revert tw th. induction docs as [|[doc_type doc] docs IH]; intros tw th;
    [reflexivity|].
  rewrite filter_cons. cbn [fst]. cbn [w2_totals].
  destruct (String.eqb_spec doc_type "w2") as [->|N].
  - rewrite decide_True by reflexivity. cbn [w2_totals]. rewrite String.eqb_refl.
    destruct (data doc) as [d|]; [|apply IH].
    destruct (add_field tw _ d); simpl; [|reflexivity].
    destruct (add_field th _ d); simpl; [|reflexivity]. apply IH.
  - rewrite decide_False by exact N. apply IH.
Qed.

Lemma total_1099_filter (docs : list (string * doc_data)) (total : Q) :
  total_1099 (filter (λ e, startswith e.1 "1099" = true) docs) total
  = total_1099 docs total.
Proof.
  revert total. induction docs as [|[doc_type doc] docs IH]; intros total;
    [reflexivity|].
  rewrite filter_cons. cbn [fst]. cbn [total_1099].
  destruct (startswith doc_type "1099") eqn:S.
  - rewrite decide_True by reflexivity. cbn [total_1099]. rewrite S.
    destruct (data doc) as [d|]; [|apply IH].
    destruct (add_field total _ d); simpl; [|reflexivity]. apply IH.
  - rewrite decide_False by congruence. apply IH.
Qed.

(** X3: [calculate_federal_tax] reads the records filed under w2 and no
    other: taking every other record away, 1099 income included, changes
    neither its result nor whether it raises.  In the same way
    [calculate_self_employment_tax] reads only the records whose type starts
    with 1099. *)
Theorem X3_only_w2_records_count_for_federal_tax
    (docs : list (string * doc_data))
    (answers : option (gmap string answer_value)) :
  calculate_federal_tax (mkInput (Some (filter (λ e, e.1 = "w2") docs)) answers)
  = calculate_federal_tax (mkInput (Some docs) answers)
  ∧ calculate_self_employment_tax
      (mkInput (Some (filter (λ e, startswith e.1 "1099" = true) docs)) answers)
    = calculate_self_employment_tax (mkInput (Some docs) answers).
Proof.
  split.
  - unfold calculate_federal_tax. cbn [extracted_data user_answers from_option id].
    now rewrite w2_totals_filter.
  - unfold calculate_self_employment_tax. cbn [extracted_data from_option id].
    now rewrite total_1099_filter.
Qed.

End RecordsRead.

(* ================================================================== *)
(** * State tax *)
(* ================================================================== *)

Section StateTax.

Lemma w2_totals_state_wages (docs : list (string * doc_data)) (tw th w h : Q) :
  w2_totals docs tw th = Ok (w, h) → state_wages docs tw = Ok w.
Proof.
  revert tw th. induction docs as [|[doc_type doc] docs IH]; intros tw th;
    cbn [w2_totals state_wages].
  - now intros [= -> _].
  - destruct (String.eqb doc_type "w2"); [|apply IH].
    destruct (data doc) as [d|]; [|apply IH].
    destruct (add_field tw _ d) as [tw'|]; simpl; [|discriminate].
    destruct (add_field th _ d) as [th'|]; simpl; [|discriminate].
    apply IH.
Qed.

Lemma standard_deduction_nonneg (fs : answer_value) :
  0 <= get_or standard_deduction fs 0.
Proof.
  destruct fs as [z|x|s]; [simpl; lra | simpl; lra |].
  unfold get_or, standard_deduction. cbn [assoc].
  destruct (String.eqb "single" s); [unfold Qle; simpl; lia|].
  destruct (String.eqb "married_filing_jointly" s); unfold Qle; simpl; lia.
Qed.


End StateTax.

(* ================================================================== *)
(** * Self-employment tax: bounds *)
(* ================================================================== *)

Section SelfEmploymentBounds.


End SelfEmploymentBounds.

(* ================================================================== *)
(** * Extraction: the amounts *)
(* ================================================================== *)

Section Amounts.

Lemma digits_value_ge (s : string) (acc n : Z) :
  digits_value s acc = Some n → (0 <= acc)%Z → (0 <= n)%Z.
Proof.
  revert acc. induction s as [|a s IH]; intros acc; simpl.
  - now intros [= <-].
  - destruct (is_digit a); [|discriminate].
    intros H P. apply (IH _ H). unfold digit_value. lia.
Qed.

Lemma float_of_decimal_nonneg (s : string) (q : Q) :
  float_of_decimal s = Some q → 0 <= q.
Proof.
  unfold float_of_decimal.
  destruct (split_point s) as [[i f]|]; simpl; [|discriminate].
  destruct (0 <? _)%nat; [|discriminate].
  destruct (digits_value (i +:+ f) 0) as [n|] eqn:D; simpl; [|discriminate].
  intros [= <-]. apply digits_value_ge in D; [|lia].
  unfold Qle. simpl. lia.
Qed.

(** X6: the amounts read by [extract_currency_values] are never negative,
    whatever the text. *)
Theorem X6_currency_values_never_negative (text : string) :
  Forall (λ v, 0 <= v) (extract_currency_values text).
Proof.
  unfold extract_currency_values.
  generalize (findall currency_prefix currency_group text). intros matches.
  assert (G : ∀ values, Forall (λ v, 0 <= v) values →
              Forall (λ v, 0 <= v)
                (fold_left
                   (λ values m,
                      match float_of_decimal
                              (replace "$" EmptyString (replace "," EmptyString m))
                      with
                      | Some v => values ++ [v]
                      | None => values
                      end) matches values)).
  { induction matches as [|m matches IH]; intros values F; simpl; [exact F|].
    apply IH.
    destruct (float_of_decimal _) as [v|] eqn:E; [|exact F].
    apply Forall_app. split; [exact F|].
    constructor; [|constructor]. now apply float_of_decimal_nonneg in E. }
  apply G. constructor.
Qed.

End Amounts.

(* ================================================================== *)
(** * Extraction: which amount goes to which field *)
(* ================================================================== *)

Section Positions.

(** The record of a W-2, from what [extract_ssn] and
    [extract_currency_values] return. *)
Lemma extract_w2_data_boxes (text : string) (i : nat) (name : string) :
  map snd box_mappings !! i = Some name →
  extract_w2_data text !! name = VNum <$> extract_currency_values text !! i.
Proof.
  unfold extract_w2_data.
  generalize (extract_currency_values text) (of_optional (extract_ssn text)).
  intros cv o H.
  destruct i as [|[|[|[|[|[|i]]]]]]; simpl in H; try discriminate;
    injection H as <-;
    destruct cv as [|v0 [|v1 [|v2 [|v3 [|v4 [|v5 cv]]]]]];
    vm_compute; reflexivity.
Qed.

Lemma extract_w2_data_keys (text k : string) :
  is_Some (extract_w2_data text !! k) →
  k = "ssn" ∨ In k (map snd box_mappings).
Proof.
  unfold extract_w2_data.
  generalize (extract_currency_values text) (of_optional (extract_ssn text)).
  intros cv o [v H].
  destruct cv as [|v0 [|v1 [|v2 [|v3 [|v4 [|v5 cv]]]]]];
    simpl in H;
    repeat (apply lookup_insert_Some in H as [[<- _]|[_ H]];
            [simpl; tauto|]);
    now apply lookup_empty_Some in H.
Qed.

Lemma extract_1099_data_amounts (text : string) :
  extract_1099_data text !! "nonemployee_compensation"
  = VNum <$> extract_currency_values text !! 0%nat
  ∧ extract_1099_data text !! "federal_income_tax_withheld"
    = VNum <$> extract_currency_values text !! 1%nat.
Proof.
  unfold extract_1099_data.
  destruct (extract_currency_values text) as [|v0 [|v1 cv]]; split; reflexivity.
Qed.

(** X7: the amounts of a W-2 are assigned by position.  The amount number
    [i] of the text, counting from 0, is stored under the name of box
    [i + 1], for the six boxes of [box_mappings]; a box whose amount is
    missing from the text is absent from the record; nothing else than [ssn]
    and the six boxes is ever stored, so a seventh amount is dropped.  On a
    1099 the first amount is the nonemployee compensation and the second the
    tax withheld. *)
Theorem X7_amounts_are_assigned_by_position (text : string) :
  (∀ i name,
     map snd box_mappings !! i = Some name →
     extract_data text "w2" !! name = VNum <$> extract_currency_values text !! i)
  ∧ (∀ k, is_Some (extract_data text "w2" !! k) →
          k = "ssn" ∨ In k (map snd box_mappings))
  ∧ extract_data text "1099-nec" !! "nonemployee_compensation"
    = VNum <$> extract_currency_values text !! 0%nat
  ∧ extract_data text "1099-nec" !! "federal_income_tax_withheld"
    = VNum <$> extract_currency_values text !! 1%nat.
Proof.
  change (extract_data text "w2") with (extract_w2_data text).
  change (extract_data text "1099-nec") with (extract_1099_data text).
  split; [apply extract_w2_data_boxes|].
  split; [apply extract_w2_data_keys|].
  apply extract_1099_data_amounts.
Qed.

End Positions.

(** A W-2 text on which the first amount was not read: the tax withheld is
    stored as the wages. *)
Example w2_shifted_by_missing_amount :
  extract_data "W-2 Wages [unreadable] Federal income tax withheld 9,000.00" "w2"
    !! "wages_tips_other_comp" = Some (VNum 9000.00).
Proof. reflexivity. Qed.

(* ================================================================== *)
(** * Extraction: receipts *)
(* ================================================================== *)

Section Receipts.

Lemma max_of_spec (v : Q) (vs : list Q) :
  In (max_of v vs) (v :: vs) ∧ Forall (λ x, x <= max_of v vs) (v :: vs).
Proof.
  unfold max_of. revert v. induction vs as [|x vs IH]; intros v; simpl.
  - split; [now left|]. constructor; [lra | constructor].
  - destruct (Qle_bool x v) eqn:C.
    + apply Qle_bool_iff in C. destruct (IH v) as [I F]. split.
      * simpl in I. tauto.
      * apply Forall_cons in F as [F1 F2].
        constructor; [exact F1|]. constructor; [lra | exact F2].
    + assert (L : v <= x).
      { destruct (Qlt_le_dec x v) as [Lt|Ge]; [|exact Ge].
        assert (Qle_bool x v = true) by (apply Qle_bool_iff; lra). congruence. }
      destruct (IH x) as [I F]. split.
      * simpl in I. tauto.
      * apply Forall_cons in F as [F1 F2].
        constructor; [lra|]. constructor; [exact F1 | exact F2].
Qed.

(** X8: the total of a receipt is the largest amount of the text: it is one
    of the amounts read and none is larger; when no amount is read the
    record has no total. *)
Theorem X8_receipt_total_is_largest_amount (text : string) :
  match extract_data text "receipt" !! "total_amount" with
  | Some total =>
      ∃ m, total = VNum m
           ∧ In m (extract_currency_values text)
           ∧ Forall (λ x, x <= m) (extract_currency_values text)
  | None => extract_currency_values text = []
  end.
Proof.
  change (extract_data text "receipt") with (extract_receipt_data text).
  unfold extract_receipt_data.
  destruct (extract_currency_values text) as [|v vs].
  - destruct (search date_pattern text); [rewrite lookup_insert_ne by discriminate|];
      rewrite lookup_empty; reflexivity.
  - destruct (search date_pattern text); [rewrite lookup_insert_ne by discriminate|];
      rewrite lookup_insert_eq; exists (max_of v vs);
      (split; [reflexivity|]); apply max_of_spec.
Qed.

End Receipts.

(* ================================================================== *)
(** * Extraction: the identification numbers *)
(* ================================================================== *)

Section Identifiers.

Lemma append_cons (x : ascii) (a b : string) :
  String x a +:+ b = String x (a +:+ b).
Proof. reflexivity. Qed.

Lemma append_nil (b : string) : EmptyString +:+ b = b.
Proof. reflexivity. Qed.

Lemma append_assoc (a b c : string) : (a +:+ b) +:+ c = a +:+ (b +:+ c).
Proof.
  induction a as [|x a IH]; [reflexivity|].
  rewrite !append_cons. now rewrite IH.
Qed.

Lemma append_length (a b : string) :
  String.length (a +:+ b) = (String.length a + String.length b)%nat.
Proof.
  induction a as [|x a IH]; [reflexivity|].
  rewrite append_cons. simpl. now rewrite IH.
Qed.

(** [\d{n}] reads [n] digits or fails. *)
Lemma rmatch_exactly_digits {X} (n : nat) (k : cursor → option X) (c : cursor) :
  rmatch (exactly n Digit) k c
  = match read_digits n c with Some c' => k c' | None => None end.
Proof.
  unfold exactly. cbn [rmatch].
  assert (G : ∀ left done c,
             (done + left = n)%nat →
             (fix iterate (left done : nat) (c : cursor) {struct left}
                : option X :=
                let more :=
                  match left with
                  | O => None
                  | S left' => read is_digit (iterate left' (S done)) c
                  end in
                match more with
                | Some x => Some x
                | None => if (n <=? done)%nat then k c else None
                end) left done c
             = match read_digits left c with Some c' => k c' | None => None end).
  { induction left as [|left IH]; intros done c0 E.
    - simpl. rewrite Nat.add_0_r in E. subst done. now rewrite Nat.leb_refl.
    - assert (F : (n <=? done)%nat = false) by (apply Nat.leb_gt; lia).
      cbn [read_digits]. unfold read at 1.
      destruct (rest c0) as [|a s]; cbn zeta; [now rewrite F|].
      destruct (is_digit a); [|now rewrite F].
      rewrite IH by lia.
      destruct (read_digits left _) as [c1|]; [|now rewrite F].
      destruct (k c1); [reflexivity | now rewrite F]. }
  apply G. reflexivity.
Qed.

Lemma read_digits_spec (n : nat) (c c' : cursor) :
  read_digits n c = Some c' →
  ∃ m, rest c = m +:+ rest c' ∧ digit_string n m.
Proof.
  revert c. induction n as [|n IH]; intros c; simpl.
  - intros [= <-]. exists EmptyString. repeat split.
  - destruct (rest c) as [|a s] eqn:R; [discriminate|].
    destruct (is_digit a) eqn:D; [|discriminate].
    intros H. destruct (IH _ H) as (m & E & L & C). simpl in E.
    exists (String a m). unfold digit_string. rewrite append_cons.
    simpl. rewrite D, E, L, C. repeat split.
Qed.

Lemma read_char (a : ascii) (c c' : cursor) {X} (k : cursor → option X) (x : X) :
  read (Ascii.eqb a) k c = Some x →
  ∃ c1, rest c = String a (rest c1) ∧ k c1 = Some x.
Proof.
  unfold read. destruct (rest c) as [|b s]; [discriminate|].
  destruct (Ascii.eqb_spec a b) as [<-|]; [|discriminate].
  intros H. eexists (Cursor _ s). split; [reflexivity | exact H].
Qed.

(** What a match of the SSN pattern has read. *)
Lemma rmatch_ssn_pattern (c c' : cursor) :
  rmatch ssn_pattern Some c = Some c' →
  ∃ m, rest c = m +:+ rest c' ∧ ssn_form m.
Proof.
  unfold ssn_pattern. cbn [rmatch].
  destruct (xorb _ _); [|discriminate].
  rewrite rmatch_exactly_digits.
  destruct (read_digits 3 c) as [c1|] eqn:D1; [|discriminate].
  intros H. apply read_char in H as (c2 & R2 & H); [|exact c].
  rewrite rmatch_exactly_digits in H.
  destruct (read_digits 2 c2) as [c3|] eqn:D2; [|discriminate].
  apply read_char in H as (c4 & R4 & H); [|exact c].
  rewrite rmatch_exactly_digits in H.
  destruct (read_digits 4 c4) as [c5|] eqn:D3; [|discriminate].
  destruct (xorb _ _); [|discriminate]. injection H as <-.
  apply read_digits_spec in D1 as (a & E1 & F1).
  apply read_digits_spec in D2 as (b & E2 & F2).
  apply read_digits_spec in D3 as (d & E3 & F3).
  exists (a +:+ "-" +:+ b +:+ "-" +:+ d). split.
  - rewrite E1, R2, E2, R4, E3.
    rewrite !append_assoc. reflexivity.
  - exists a, b, d. auto.
Qed.

(** What a match of the EIN pattern has read. *)
Lemma rmatch_ein_pattern (c c' : cursor) :
  rmatch ein_pattern Some c = Some c' →
  ∃ m, rest c = m +:+ rest c' ∧ ein_form m.
Proof.
  unfold ein_pattern. cbn [rmatch].
  destruct (xorb _ _); [|discriminate].
  rewrite rmatch_exactly_digits.
  destruct (read_digits 2 c) as [c1|] eqn:D1; [|discriminate].
  intros H. apply read_char in H as (c2 & R2 & H); [|exact c].
  rewrite rmatch_exactly_digits in H.
  destruct (read_digits 7 c2) as [c3|] eqn:D2; [|discriminate].
  destruct (xorb _ _); [|discriminate]. injection H as <-.
  apply read_digits_spec in D1 as (a & E1 & F1).
  apply read_digits_spec in D2 as (b & E2 & F2).
  exists (a +:+ "-" +:+ b). split.
  - rewrite E1, R2, E2. rewrite !append_assoc. reflexivity.
  - exists a, b. auto.
Qed.

Lemma substring_append (m r : string) :
  substring 0 (String.length (m +:+ r) - String.length r) (m +:+ r) = m.
Proof.
  rewrite append_length.
  replace (String.length m + String.length r - String.length r)%nat
    with (String.length m) by lia.
  induction m as [|x m IH].
  - rewrite append_nil. now destruct r.
  - rewrite append_cons. simpl. now rewrite IH.
Qed.

Lemma prefix_append (m r : string) : String.prefix m (m +:+ r) = true.
Proof.
  induction m as [|x m IH]; [rewrite append_nil; now destruct r|].
  rewrite append_cons. simpl.
  destruct (ascii_dec x x); [exact IH | contradiction].
Qed.

Lemma contains_append (pre m r : string) : contains m (pre +:+ m +:+ r) = true.
Proof.
  induction pre as [|x pre IH].
  - rewrite append_nil.
    assert (P : String.prefix m (m +:+ r) = true) by apply prefix_append.
    destruct (m +:+ r); cbn [contains]; now rewrite P.
  - rewrite append_cons. cbn [contains]. rewrite IH. apply orb_true_r.
Qed.

(** [re.search] returns what a match at some position of the text read. *)
Lemma search_from_match (r : regex) (prev : option ascii) (s m : string) :
  search_from r prev s = Some m →
  ∃ pre c c', s = pre +:+ rest c
              ∧ rmatch r Some c = Some c' ∧ m = between c c'.
Proof.
  revert prev. induction s as [|a s IH]; intros prev; cbn [search_from].
  - destruct (rmatch r Some _) as [c'|] eqn:M; [|discriminate].
    intros [= <-]. exists EmptyString, (Cursor prev EmptyString), c'. auto.
  - destruct (rmatch r Some _) as [c'|] eqn:M.
    + intros [= <-]. exists EmptyString, (Cursor prev (String a s)), c'. auto.
    + intros H. destruct (IH _ H) as (pre & c & c' & E & M' & B).
      exists (String a pre), c, c'. rewrite append_cons. now rewrite <- E.
Qed.


End Identifiers.


(* ================================================================== *)
(** * Classification: the result and its confidence *)
(* ================================================================== *)

Section ClassifierRange.

(** X10: [classify_document] returns one of the seven tags w2, 1099-misc,
    1099-k, 1099-nec, 1098, receipt and other, whatever the text; it returns
    other only when no marker phrase occurs in the lower-cased text. *)
Theorem X10_classification_is_one_of_seven_tags (text : string) :
  ∃ t, classify_document text = Ok t
       ∧ In t [ "w2"; "1099-misc"; "1099-k"; "1099-nec"; "1098"; "receipt";
                "other" ]
       ∧ (t = "other" → no_marker text).
Proof.
  destruct (classify_document_first_best text)
    as (i & t & kws & K & C & Hmax & _).
  destruct (Nat.eqb_spec (score text kws) 0) as [Z|N].
  - exists "other". split; [exact C|]. split; [simpl; tauto|].
    intros _. unfold no_marker. apply Forall_forall. intros [t' kws'] I.
    apply list_elem_of_lookup_1 in I as [j L]. specialize (Hmax _ _ _ L).
    assert (S0 : score text kws' = 0%nat) by lia. clear -S0.
    unfold score in S0. induction kws' as [|kw kws' IH]; [constructor|].
    rewrite filter_cons in S0.
    destruct (decide (contains kw (lower text) = true)) as [T|F];
      [discriminate S0|].
    constructor; [now destruct (contains kw (lower text)) | now apply IH].
  - exists t. split; [exact C|]. split.
    + assert (I : In t (map fst keywords)).
      { apply in_map_iff. exists (t, kws). split; [reflexivity|].
        apply list_elem_of_In. eapply list_elem_of_lookup_2. exact K. }
      simpl in I. simpl. tauto.
    + intros ->. exfalso.
      assert (I : In "other" (map fst keywords)).
      { apply in_map_iff. exists ("other", kws). split; [reflexivity|].
        apply list_elem_of_In. eapply list_elem_of_lookup_2. exact K. }
      simpl in I. intuition discriminate.
Qed.

Lemma keywords_assoc (i : nat) (t : string) (kws : list string) :
  keywords !! i = Some (t, kws) → assoc t keywords = Some kws.
Proof.
  destruct i as [|[|[|[|[|[|i]]]]]]; simpl; try discriminate;
    intros [= <- <-]; reflexivity.
Qed.

Lemma assoc_In {A} (k : string) (d : list (string * A)) (v : A) :
  assoc k d = Some v → In (k, v) d.
Proof.
  induction d as [|[k' v'] d IH]; simpl; [discriminate|].
  destruct (String.eqb_spec k' k) as [->|_].
  - intros [= ->]. now left.
  - intros H. right. now apply IH.
Qed.

(** The confidence is the share of the marker phrases of the type that
    occur in the text. *)
Lemma get_confidence_score_share (text doc_type : string) (kws : list string) :
  assoc doc_type keywords = Some kws →
  get_confidence_score text doc_type
  == inject_Z (Z.of_nat (score text kws)) / inject_Z (Z.of_nat (List.length kws)).
Proof.
  intros A. unfold get_confidence_score. rewrite A.
  pose proof keywords_lower_case as L. rewrite Forall_forall in L.
  pose proof (assoc_In _ _ _ A) as I. apply list_elem_of_In in I.
  specialize (L _ I). simpl in L. rewrite (filter_lower _ _ L).
  fold (score text kws).
  destruct (Nat.ltb_spec 0 (List.length kws)) as [P|Z]; [reflexivity|].
  assert (E : List.length kws = 0%nat) by lia. rewrite E.
  unfold Qdiv. simpl. unfold Qeq. simpl. lia.
Qed.

Lemma score_le_length (text : string) (kws : list string) :
  (score text kws <= List.length kws)%nat.
Proof. unfold score. apply length_filter. Qed.

(** X11: the confidence of a type on a text lies between 0 and 1, and is 0
    for a type that has no marker phrases; the type that [classify_document]
    returns, when it is not other, has a confidence above 0. *)
Theorem X11_confidence_between_0_and_1 (text doc_type : string) :
  0 <= get_confidence_score text doc_type
  ∧ get_confidence_score text doc_type <= 1
  ∧ (assoc doc_type keywords = None → get_confidence_score text doc_type == 0)
  ∧ (classify_document text = Ok doc_type → doc_type ≠ "other" →
     0 < get_confidence_score text doc_type).
Proof.
  destruct (assoc doc_type keywords) as [kws|] eqn:A.
  - pose proof (get_confidence_score_share text _ _ A) as E.
    pose proof (score_le_length text kws) as B.
    assert (Bounds : 0 <= get_confidence_score text doc_type
                     ∧ get_confidence_score text doc_type <= 1).
    { rewrite E.
      destruct (List.length kws) as [|n] eqn:Len.
      - assert (S0 : score text kws = 0%nat) by lia. rewrite S0.
        unfold Qdiv, Qle. simpl. lia.
      - split.
        + apply Qle_shift_div_l; [unfold Qlt; simpl; lia|].
          unfold Qle. simpl. lia.
        + apply Qle_shift_div_r; [unfold Qlt; simpl; lia|].
          unfold Qle. simpl. lia. }
    destruct Bounds as [B0 B1].
    split; [exact B0|]. split; [exact B1|]. split; [discriminate|].
    intros C N.
    destruct (classify_document_first_best text)
      as (i & t & kws' & K & C' & _).
    rewrite C in C'.
    destruct (Nat.eqb_spec (score text kws') 0) as [Z|P];
      injection C' as ->; [contradiction|].
    apply keywords_assoc in K. rewrite A in K. injection K as <-.
    rewrite E.
    destruct (List.length kws) as [|n] eqn:Len; [lia|].
    apply Qlt_shift_div_l; [unfold Qlt; simpl; lia|].
    unfold Qlt. simpl. lia.
  - assert (Z : get_confidence_score text doc_type == 0).
    { unfold get_confidence_score. now rewrite A. }
    split; [rewrite Z; lra|]. split; [rewrite Z; lra|]. split; [auto|].
    intros C N.
    destruct (classify_document_first_best text)
      as (i & t & kws' & K & C' & _).
    rewrite C in C'.
    destruct (Nat.eqb_spec (score text kws') 0) as [Z'|P];
      injection C' as ->; [contradiction|].
    apply keywords_assoc in K. congruence.
Qed.

End ClassifierRange.

Lemma X10_classification_is_one_of_seven_tags_witness :
  ∃ t, classify_document "" = Ok t ∧ no_marker "".
Proof.
  destruct (X10_classification_is_one_of_seven_tags "") as (t & C & _ & N).
  exists t. split; [exact C|]. apply N.
  vm_compute in C. congruence.
Defined.

Lemma X11_confidence_between_0_and_1_witness :
  0 < get_confidence_score "Form W-2 Wage and Tax Statement" "w2".
Proof.
  apply (X11_confidence_between_0_and_1 "Form W-2 Wage and Tax Statement" "w2").
  - vm_compute. reflexivity.
  - discriminate.
Defined.

(* ================================================================== *)
(** * The questionnaire: what is accepted and what is stored *)
(* ================================================================== *)

Section Validation.

Variable float_of_str : string → option float.

Lemma float_ltb_0 (x : float) :
  float_ltb x (Finite 0) = false
  ↔ match x with Finite q => 0 <= q | NegInf => False | _ => True end.
Proof.
  destruct x as [q| | |]; simpl; try tauto.
  - rewrite negb_false_iff. apply Qle_bool_iff.
  - split; [discriminate | contradiction].
Qed.

Lemma float_in_0_100 (x : float) :
  float_leb (Finite 0) x && float_leb x (Finite 100) = true
  ↔ match x with Finite q => 0 <= q ∧ q <= 100 | _ => False end.
Proof.
  destruct x as [q| | |]; simpl; try (split; [discriminate | contradiction]).
  rewrite andb_true_iff, !Qle_bool_iff. tauto.
Qed.

(** X12: for the numeric keys, [validate_answer] accepts an answer exactly
    when [float] reads it and the number is not below 0 and, for
    [phone_percent], not above 100.  A number that is not a number, or an
    infinite one, is accepted for [dependents], [miles] and
    [home_office_sqft], and refused for [phone_percent]. *)
Theorem X12_numeric_answers_accepted (k answer : string) :
  In k numeric_keys →
  (validate_answer float_of_str k answer).1 = true
  ↔ ∃ x, float_of_str answer = Some x ∧ passes_number_check k x.
Proof.
  intros I. unfold validate_answer.
  assert (Z : String.eqb k "zip_code" = false).
  { simpl in I. destruct I as [<-|[<-|[<-|[<-|[]]]]]; reflexivity. }
  assert (M : mem k numeric_keys = true).
  { simpl in I. destruct I as [<-|[<-|[<-|[<-|[]]]]]; reflexivity. }
  rewrite Z, M. clear Z M.
  destruct (float_of_str answer) as [x|].
  2:{ cbn [fst]. split; [discriminate|]. intros (x & E & _). discriminate. }
  destruct (String.eqb_spec k "phone_percent") as [P|P]; cbn [andb].
  - destruct (float_leb (Finite 0) x && float_leb x (Finite 100)) eqn:R;
      cbn [negb].
    + apply float_in_0_100 in R. destruct x as [q| | |]; try contradiction.
      assert (L : float_ltb (Finite q) (Finite 0) = false)
        by (apply float_ltb_0; tauto).
      rewrite L. cbn [fst]. split; [|reflexivity].
      intros _. exists (Finite q). split; [reflexivity|]. simpl. tauto.
    + cbn [fst]. split; [discriminate|]. intros (y & [= <-] & C).
      assert (T : float_leb (Finite 0) x && float_leb x (Finite 100) = true).
      { apply float_in_0_100. destruct x as [q| | |]; simpl in C; tauto. }
      congruence.
  - destruct (float_ltb x (Finite 0)) eqn:L; cbn [fst].
    + split; [discriminate|]. intros (y & [= <-] & C).
      assert (T : float_ltb x (Finite 0) = false).
      { apply float_ltb_0. destruct x as [q| | |]; simpl in C; tauto. }
      congruence.
    + split; [|reflexivity]. intros _. exists x. split; [reflexivity|].
      apply float_ltb_0 in L. destruct x as [q| | |]; simpl; tauto.
Qed.

Lemma mem_In (x : string) (xs : list string) : mem x xs = true ↔ In x xs.
Proof.
  unfold mem. rewrite existsb_exists. split.
  - intros (y & I & E). apply String.eqb_eq in E. now subst.
  - intros I. exists x. split; [exact I | apply String.eqb_refl].
Qed.


Lemma normalized_char (c : ascii) :
  let d := if Ascii.eqb (lower_char c) " " then "_"%char else lower_char c in
  lower_char d = d ∧ Ascii.eqb d " " = false.
Proof. destruct c as [[] [] [] [] [] [] [] []]; vm_compute; auto. Qed.

Lemma normalized_cons (c : ascii) (s : string) :
  normalized (String c s)
  = String (if Ascii.eqb (lower_char c) " " then "_"%char else lower_char c)
      (normalized s).
Proof.
  unfold normalized. cbn [lower replace].
  destruct (Ascii.eqb (lower_char c) " "); reflexivity.
Qed.

(** Normalizing twice is normalizing once. *)
Lemma normalized_idempotent (s : string) : normalized (normalized s) = normalized s.
Proof.
  induction s as [|c s IH]; [reflexivity|].
  rewrite !normalized_cons, IH.
  destruct (normalized_char c) as [L E]. cbn zeta in L, E.
  now rewrite L, E.
Qed.

(** X14: the check of a filing status looks at the normalized answer only
    (lower case, spaces turned into underscores), so an answer and its
    normalized form are accepted alike.  An accepted answer is stored as one
    of the five valid options, and storing the stored value again changes
    nothing. *)
Theorem X14_filing_status_stored_normalized
    (answer : string) (user_data : gmap string answer_value) :
  (validate_answer float_of_str "filing_status" answer).1
  = (validate_answer float_of_str "filing_status" (normalized answer)).1
  ∧ ((validate_answer float_of_str "filing_status" answer).1 = true →
     In (normalized answer) valid_options
     ∧ process_answer float_of_str "filing_status" answer user_data
       = Ok (<["filing_status" := AStr (normalized answer)]> user_data)
     ∧ process_answer float_of_str "filing_status" (normalized answer)
         (<["filing_status" := AStr (normalized answer)]> user_data)
       = Ok (<["filing_status" := AStr (normalized answer)]> user_data)).
Proof.
  assert (V : ∀ a, (validate_answer float_of_str "filing_status" a).1
                   = mem (normalized a) valid_options) by reflexivity.
  rewrite !V, normalized_idempotent. split; [reflexivity|].
  intros M. split; [exact (proj1 (mem_In _ _) M)|]. split; [reflexivity|].
  unfold process_answer. cbn [String.eqb Ascii.eqb Bool.eqb mem existsb orb].
  fold (normalized (normalized answer)). rewrite normalized_idempotent.
  now rewrite insert_insert_eq.
Qed.


End Validation.

(* ================================================================== *)
(** * The questionnaire: languages and the end of the questions *)
(* ================================================================== *)

Section Languages.

Lemma prompt_unprompted (language k : string) :
  ¬ prompted language → prompt language k = Raise KeyError.
Proof.
  intros N. unfold prompt, getitem, questions. cbn [assoc].
  destruct (String.eqb_spec "en" language) as [E|_];
    [exfalso; apply N; left; auto|].
  destruct (String.eqb_spec "es" language) as [E|_];
    [exfalso; apply N; right; auto|].
  reflexivity.
Qed.

Lemma choice_question_unprompted (language k : string) :
  ¬ prompted language → choice_question language k = Raise KeyError.
Proof. intros N. unfold choice_question. now rewrite prompt_unprompted. Qed.

Lemma plain_question_unprompted (language k question_key ty : string) :
  ¬ prompted language →
  plain_question language k question_key ty = Raise KeyError.
Proof. intros N. unfold plain_question. now rewrite prompt_unprompted. Qed.

Lemma ask_expenses_unprompted (qs : list (string * string))
    (user_data : gmap string answer_value) (language : string) :
  ¬ prompted language →
  ask_expenses qs user_data language = Raise KeyError
  ∨ ask_expenses qs user_data language = Ok None.
Proof.
  intros N. induction qs as [|[k qk] qs IH]; cbn [ask_expenses]; [now right|].
  destruct (has k user_data); cbn [negb]; [exact IH|].
  left. now apply plain_question_unprompted.
Qed.

(** X16: in a language without prompt tables (any language but en and es,
    so also ru and ar) [get_next_question] never returns a question: while
    something is left to ask it raises KeyError, starting with the first
    call, when [filing_status] is not yet known. *)
Theorem X16_no_question_without_prompt_table
    (user_data : gmap string answer_value) (doc_types : list string)
    (language : string) :
  ¬ prompted language →
  (∀ q, get_next_question user_data doc_types language ≠ Ok (Some q))
  ∧ (user_data !! "filing_status" = None →
     get_next_question user_data doc_types language = Raise KeyError).
Proof.
  intros N. split.
  - intros q. unfold get_next_question.
    destruct (has "filing_status" user_data); cbn [negb];
      [|now rewrite choice_question_unprompted].
    destruct (has "dependents" user_data); cbn [negb];
      [|now rewrite plain_question_unprompted].
    destruct (has "zip_code" user_data); cbn [negb];
      [|now rewrite plain_question_unprompted].
    assert (G : (if any_1099 doc_types then gig_questions user_data language
                 else Ok None) = Raise KeyError
                ∨ (if any_1099 doc_types then gig_questions user_data language
                   else Ok None) = Ok None).
    { destruct (any_1099 doc_types); [|now right].
      unfold gig_questions.
      destruct (has "gig_method" user_data); cbn [negb];
        [|left; now apply choice_question_unprompted].
      destruct (eq_str _ "Standard Mileage Rate").
      { destruct (has "miles" user_data); cbn [negb];
          [now right | left; now apply plain_question_unprompted]. }
      destruct (eq_str _ "Actual Expenses"); [|now right].
      now apply ask_expenses_unprompted. }
    destruct G as [-> | ->]; simpl; [discriminate|].
    destruct (zip_starts_9_or_8 user_data) as [ca|e]; simpl; [|discriminate].
    destruct (ca && negb (has "state_specific" user_data));
      [now rewrite plain_question_unprompted | discriminate].
  - intros F. unfold get_next_question.
    apply has_false in F. rewrite F. cbn [negb].
    now apply choice_question_unprompted.
Qed.

Lemma choice_question_not_None (language k : string) :
  choice_question language k ≠ Ok None.
Proof.
  unfold choice_question.
  destruct (prompt language k); simpl; [|discriminate].
  destruct (options_for language k); simpl; discriminate.
Qed.

Lemma plain_question_not_None (language k question_key ty : string) :
  plain_question language k question_key ty ≠ Ok None.
Proof.
  unfold plain_question. destruct (prompt language question_key); simpl;
    discriminate.
Qed.

Lemma ask_expenses_None (qs : list (string * string))
    (user_data : gmap string answer_value) (language : string) :
  ask_expenses qs user_data language = Ok None →
  Forall (λ q, has q.1 user_data = true) qs.
Proof.
  induction qs as [|[k qk] qs IH]; cbn [ask_expenses]; [constructor|].
  destruct (has k user_data) eqn:H; cbn [negb].
  - intros E. constructor; [exact H | now apply IH].
  - intros E. now apply plain_question_not_None in E.
Qed.

(** X17: [get_next_question] returns no question only when nothing is left
    to ask: the three basic answers are there; if a document type contains
    1099 the gig method is there, with the miles when it is the mileage
    rate, and the phone percentage and the home office when it is the actual
    expenses; and if the ZIP code starts with 9 or 8 the answer on the
    state is there. *)
Theorem X17_no_question_means_nothing_left
    (user_data : gmap string answer_value) (doc_types : list string)
    (language : string) :
  get_next_question user_data doc_types language = Ok None →
  is_Some (user_data !! "filing_status")
  ∧ is_Some (user_data !! "dependents")
  ∧ (∃ zip, user_data !! "zip_code" = Some (AStr zip)
            ∧ (startswith zip "9" || startswith zip "8" = true →
               is_Some (user_data !! "state_specific")))
  ∧ (any_1099 doc_types = true →
     is_Some (user_data !! "gig_method")
     ∧ (user_data !! "gig_method" = Some (AStr "Standard Mileage Rate") →
        is_Some (user_data !! "miles"))
     ∧ (user_data !! "gig_method" = Some (AStr "Actual Expenses") →
        is_Some (user_data !! "phone_percent")
        ∧ is_Some (user_data !! "home_office_sqft"))).
Proof.
  unfold get_next_question.
  destruct (has "filing_status" user_data) eqn:F; cbn [negb];
    [|intros E; now apply choice_question_not_None in E].
  destruct (has "dependents" user_data) eqn:D; cbn [negb];
    [|intros E; now apply plain_question_not_None in E].
  destruct (has "zip_code" user_data) eqn:Z; cbn [negb];
    [|intros E; now apply plain_question_not_None in E].
  apply has_true in F, D.
  destruct (if any_1099 doc_types then _ else _) as [[q|]|e] eqn:G; simpl;
    [discriminate| |discriminate].
  unfold zip_starts_9_or_8.
  destruct (user_data !! "zip_code") as [[n|x|zip]|] eqn:Lz; simpl;
    try discriminate.
  2:{ apply has_true in Z. rewrite Lz in Z. now destruct Z. }
  intros E. split; [exact F|]. split; [exact D|]. split.
  { exists zip. split; [reflexivity|]. intros CA. rewrite CA in E.
    destruct (has "state_specific" user_data) eqn:St; cbn [andb negb] in E.
    - now apply has_true.
    - now apply plain_question_not_None in E. }
  intros A. rewrite A in G. unfold gig_questions in G.
  destruct (has "gig_method" user_data) eqn:Gm; cbn [negb] in G;
    [|now apply choice_question_not_None in G].
  split; [now apply has_true|].
  destruct (eq_str _ "Standard Mileage Rate") eqn:SMR.
  - apply eq_str_true in SMR. rewrite SMR.
    destruct (has "miles" user_data) eqn:Mi; cbn [negb] in G;
      [|now apply plain_question_not_None in G].
    split; [intros _; now apply has_true | discriminate].
  - split.
    { intros E'. apply eq_str_true in E'. congruence. }
    intros AE. apply eq_str_true in AE. rewrite AE in G.
    apply ask_expenses_None in G.
    apply Forall_cons in G as [P G]. apply Forall_cons in G as [H _].
    split; now apply has_true.
Qed.

End Languages.

Lemma X16_no_question_without_prompt_table_witness :
  get_next_question ∅ [ "w2" ] "ru" = Raise KeyError.
Proof.
  apply (X16_no_question_without_prompt_table ∅ [ "w2" ] "ru").
  - intros [E|E]; discriminate E.
  - reflexivity.
Defined.

Lemma X17_no_question_means_nothing_left_witness :
  is_Some (mileage_answers !! "dependents").
Proof.
  apply (X17_no_question_means_nothing_left mileage_answers [ "w2" ] "en").
  reflexivity.
Defined.

Lemma X12_numeric_answers_accepted_witness :
  (validate_answer float_of_plain "miles" "nan").1 = true.
Proof.
  apply (X12_numeric_answers_accepted float_of_plain "miles" "nan").
  - simpl. tauto.
  - exists NaN. split; [reflexivity|]. simpl. discriminate.
Defined.


Lemma X14_filing_status_stored_normalized_witness :
  In (normalized "Head of Household") valid_options.
Proof.
  apply (X14_filing_status_stored_normalized float_of_plain
           "Head of Household" ∅).
  reflexivity.
Defined.


Example dependents_cut_to_whole_number :
  process_answer float_of_plain "dependents" "2.9" ∅
  = Ok {[ "dependents" := AInt 2 ]}.
Proof. reflexivity. Qed.

(* ================================================================== *)
(** * From the documents to the records, and on to the calculator *)
(* ================================================================== *)

Section Pipeline.

Variable extract_text : string → string.
Variable validate_data : gmap string value → string → result unit.

Lemma setitem_assoc_eq {A} (k : string) (v : A) (d : list (string * A)) :
  assoc k (setitem k v d) = Some v.
Proof.
  induction d as [|[k' v'] d IH]; simpl.
  - now rewrite String.eqb_refl.
  - destruct (String.eqb k' k) eqn:E; simpl; rewrite E; [reflexivity | exact IH].
Qed.

Lemma setitem_assoc_ne {A} (k k' : string) (v : A) (d : list (string * A)) :
  k' ≠ k → assoc k' (setitem k v d) = assoc k' d.
Proof.
  intros N. induction d as [|[k0 v0] d IH]; simpl.
  - destruct (String.eqb_spec k k'); [congruence | reflexivity].
  - destruct (String.eqb_spec k0 k) as [->|N0]; simpl.
    + destruct (String.eqb_spec k k'); [congruence | reflexivity].
    + destruct (String.eqb k0 k'); [reflexivity | exact IH].
Qed.

Lemma setitem_keys {A} (k : string) (v : A) (d : list (string * A)) :
  ∀ x, In x (map fst (setitem k v d)) ↔ x = k ∨ In x (map fst d).
Proof.
  intros x. induction d as [|[k' v'] d IH]; simpl; [intuition congruence|].
  destruct (String.eqb_spec k' k) as [->|N]; simpl; [intuition congruence|].
  rewrite IH. intuition congruence.
Qed.

Lemma setitem_NoDup {A} (k : string) (v : A) (d : list (string * A)) :
  List.NoDup (map fst d) → List.NoDup (map fst (setitem k v d)).
Proof.
  induction d as [|[k' v'] d IH]; simpl; intros N.
  - constructor; [tauto | constructor].
  - inversion N as [|? ? Nin Nd]; subst.
    destruct (String.eqb_spec k' k) as [->|Ne]; simpl.
    + now constructor.
    + constructor; [|now apply IH].
      rewrite setitem_keys. intros [E|I]; [congruence | contradiction].
Qed.

Lemma setitem_Forall {A} (P : string * A → Prop) (k : string) (v : A)
    (d : list (string * A)) :
  P (k, v) → Forall P d → Forall P (setitem k v d).
Proof.
  intros Pk. induction 1 as [|[k' v'] d Px F IH]; simpl.
  - constructor; [exact Pk | constructor].
  - destruct (String.eqb_spec k' k) as [->|N]; constructor; auto.
Qed.

(** One document more keeps the session in order. *)
Lemma process_document_ok (doc : document)
    (acc : list (string * doc_data) * list string) :
  session_ok acc → session_ok (process_document extract_text validate_data doc acc).
Proof.
  destruct acc as [ed dts]. intros (N & F & K & T). unfold process_document.
  set (text := if String.eqb (mime_type doc) "application/pdf" then _ else _).
  destruct (X10_classification_is_one_of_seven_tags text) as (t & C & I & _).
  rewrite C.
  assert (T' : Forall (λ t, In t document_types) (dts ++ [ t ])).
  { apply Forall_app. split; [exact T|]. constructor; [exact I | constructor]. }
  destruct (validate_data _ t) as [[]|e].
  - repeat split; cbn [fst snd].
    + now apply setitem_NoDup.
    + apply setitem_Forall; [|exact F]. now exists text.
    + intros k H. apply setitem_keys in H as [->|H]; apply in_or_app;
        [right; now left | left; now apply K].
    + exact T'.
  - repeat split; cbn [fst snd]; try assumption.
    intros k H. apply in_or_app. left. now apply K.
Qed.

Lemma process_documents_from (documents : list document)
    (acc : list (string * doc_data) * list string) :
  session_ok acc →
  session_ok
    (fold_left (λ acc doc, process_document extract_text validate_data doc acc)
       documents acc).
Proof.
  revert acc. induction documents as [|doc documents IH]; intros acc H;
    [exact H|].
  simpl. apply IH. now apply process_document_ok.
Qed.

Lemma process_documents_ok (documents : list document) :
  session_ok (process_documents extract_text validate_data documents).
Proof.
  apply process_documents_from. repeat split; simpl; try constructor.
  intros k [].
Qed.

Lemma process_documents_snoc (documents : list document) (doc : document) :
  process_documents extract_text validate_data (documents ++ [ doc ])
  = process_document extract_text validate_data doc
      (process_documents extract_text validate_data documents).
Proof. unfold process_documents. now rewrite fold_left_app. Qed.

(** X18: after any uploads the session holds at most one record per
    document type, filed under a type that is among the types seen, all of
    them among the seven document types.  The record of the last document of
    a type that went through replaces the earlier ones of that type, while
    the list of the types seen keeps them all. *)
Theorem X18_one_record_per_type_last_document_wins
    (documents : list document) (doc : document) (text doc_type : string) :
  text = (if String.eqb (mime_type doc) "application/pdf"
          then extract_text_from_pdf (file_bytes doc)
          else extract_text (file_bytes doc)) →
  classify_document text = Ok doc_type →
  returns (validate_data (extract_data text doc_type) doc_type) →
  let before := process_documents extract_text validate_data documents in
  let after :=
    process_documents extract_text validate_data (documents ++ [ doc ]) in
  session_ok after
  ∧ assoc doc_type after.1 = Some (mkDoc (Some (extract_data text doc_type)))
  ∧ (∀ t, t ≠ doc_type → assoc t after.1 = assoc t before.1)
  ∧ after.2 = before.2 ++ [ doc_type ].
Proof.
  intros E C [[] V]. cbn zeta.
  split; [apply process_documents_ok|].
  rewrite process_documents_snoc.
  destruct (process_documents extract_text validate_data documents) as [ed dts].
  unfold process_document. rewrite <- E, C, V. cbn [fst snd].
  split; [apply setitem_assoc_eq|]. split; [|reflexivity].
  intros t N. now apply setitem_assoc_ne.
Qed.

Lemma startswith_1099_not_w2 (t : string) :
  startswith t "1099" = true → String.eqb t "w2" = false.
Proof.
  unfold startswith. destruct t as [|c t]; [discriminate|].
  cbn [String.prefix].
  destruct (ascii_dec "1" c) as [<-|]; [intros _; reflexivity | discriminate].
Qed.

Lemma add_field_VNum (total : Q) (k : string) (d : gmap string value)
    (o : option Q) :
  d !! k = VNum <$> o → add_field total k d = Ok (total + default 0 o).
Proof. intros E. unfold add_field. rewrite E. now destruct o. Qed.

(** The loops of the calculator go through on records made by
    [extract_data]. *)
Lemma loops_return_on_extracted_records (ed : list (string * doc_data)) :
  Forall extracted_record ed →
  ∀ a b, returns (w2_totals ed a b) ∧ returns (state_wages ed a)
         ∧ returns (total_1099 ed a).
Proof.
  induction 1 as [|[t doc] ed [text E] _ IH]; intros a b.
  - repeat split; eexists; reflexivity.
  - simpl in E. subst doc. cbn [w2_totals state_wages total_1099 data].
    repeat split.
    + destruct (String.eqb_spec t "w2") as [->|N]; [|apply IH].
      change (extract_data text "w2") with (extract_w2_data text).
      rewrite (add_field_VNum _ _ _ _ (extract_w2_data_boxes text 0 _ eq_refl)).
      simpl.
      rewrite (add_field_VNum _ _ _ _ (extract_w2_data_boxes text 1 _ eq_refl)).
      simpl. apply IH.
    + destruct (String.eqb_spec t "w2") as [->|N]; [|apply (IH a b)].
      change (extract_data text "w2") with (extract_w2_data text).
      rewrite (add_field_VNum _ _ _ _ (extract_w2_data_boxes text 0 _ eq_refl)).
      simpl. apply (IH _ b).
    + destruct (startswith t "1099") eqn:S; [|apply (IH a b)].
      assert (X : extract_data text t = extract_1099_data text).
      { unfold extract_data. now rewrite (startswith_1099_not_w2 t S), S. }
      rewrite X.
      rewrite (add_field_VNum _ _ _ _ (proj1 (extract_1099_data_amounts text))).
      simpl. apply (IH _ b).
Qed.

(** X19: whatever the documents, the recognition and the validator, the
    three computations of the calculator return on the records that
    [process_documents] files: the None that [extract_w2_data] stores under
    [ssn] is never added up, and every amount stored is a number. *)
Theorem X19_calculator_returns_on_processed_documents
    (documents : list document) (answers : gmap string answer_value)
    (state : string) :
  let input :=
    mkInput (Some (process_documents extract_text validate_data documents).1)
      (Some answers) in
  returns (calculate_federal_tax input)
  ∧ returns (calculate_state_tax input state)
  ∧ returns (calculate_self_employment_tax input).
Proof.
  cbn zeta.
  destruct (process_documents_ok documents) as (_ & F & _).
  pose proof (loops_return_on_extracted_records _ F 0 0) as ([wh W] & [w S] & [t T]).
  repeat split.
  - unfold calculate_federal_tax. cbn [extracted_data user_answers from_option id].
    rewrite W. destruct wh as [tw th]. simpl.
    destruct (Qlt_le_dec _ th); eexists; reflexivity.
  - unfold calculate_state_tax. cbn [extracted_data from_option id].
    rewrite S. simpl. destruct (String.eqb _ "CA"); eexists; reflexivity.
  - unfold calculate_self_employment_tax. cbn [extracted_data from_option id].
    rewrite T. simpl. destruct (Qeq_bool t 0); eexists; reflexivity.
Qed.

Lemma w2_totals_without_w2 (ed : list (string * doc_data)) (a b : Q) :
  ¬ In "w2" (map fst ed) → w2_totals ed a b = Ok (a, b).
Proof.
  revert a b. induction ed as [|[t doc] ed IH]; intros a b N; [reflexivity|].
  cbn [w2_totals]. simpl in N.
  destruct (String.eqb_spec t "w2") as [->|Ne]; [tauto|].
  apply IH. tauto.
Qed.

Lemma w2_totals_one_record (ed : list (string * doc_data))
    (d : gmap string value) (wages withheld : option Q) (a b : Q) :
  List.NoDup (map fst ed) →
  assoc "w2" ed = Some (mkDoc (Some d)) →
  d !! "wages_tips_other_comp" = VNum <$> wages →
  d !! "federal_income_tax_withheld" = VNum <$> withheld →
  w2_totals ed a b = Ok (a + default 0 wages, b + default 0 withheld).
Proof.
  intros N A W H. revert N A.
  induction ed as [|[t doc] ed IH]; intros N A; [discriminate|].
  cbn [assoc] in A. cbn [w2_totals]. simpl in N.
  inversion N as [|? ? Nin Nd]; subst.
  destruct (String.eqb_spec t "w2") as [->|Ne].
  - injection A as ->. cbn [data].
    rewrite (add_field_VNum _ _ _ _ W). simpl.
    rewrite (add_field_VNum _ _ _ _ H). simpl.
    now apply w2_totals_without_w2.
  - now apply IH.
Qed.


Lemma process_pdf (doc : document)
    (acc : list (string * doc_data) * list string) :
  mime_type doc = "application/pdf" →
  process_document extract_text validate_data doc acc
  = (match validate_data ∅ "other" with
     | Ok _ => setitem "other" (mkDoc (Some ∅)) acc.1
     | Raise _ => acc.1
     end,
     acc.2 ++ [ "other" ]).
Proof.
  intros M. destruct acc as [ed dts]. unfold process_document. rewrite M.
  rewrite String.eqb_refl.
  change (classify_document (extract_text_from_pdf (file_bytes doc)))
    with (@Ok string "other").
  cbn beta iota zeta.
  change (extract_data (extract_text_from_pdf (file_bytes doc)) "other")
    with (∅ : gmap string value).
  cbn [fst snd]. destruct (validate_data ∅ "other"); reflexivity.
Qed.

(** X21: a PDF is never read.  [extract_text_from_pdf] returns the empty
    text, so every PDF is classified as other and filed with an empty
    record: a session made of PDFs only holds no W-2 and no 1099, and the
    federal computation finds no wages and nothing withheld. *)
Theorem X21_pdf_documents_are_read_as_empty (documents : list document) :
  Forall (λ doc, mime_type doc = "application/pdf") documents →
  let session := process_documents extract_text validate_data documents in
  session.2 = repeat "other" (List.length documents)
  ∧ Forall (λ entry, entry = ("other", mkDoc (Some ∅))) session.1
  ∧ w2_totals session.1 0 0 = Ok (0, 0)
  ∧ total_1099 session.1 0 = Ok 0.
Proof.
  intros P. cbn zeta.
  assert (G : ∀ acc,
             Forall (λ entry, entry = ("other", mkDoc (Some ∅))) acc.1 →
             let session :=
               fold_left
                 (λ acc doc, process_document extract_text validate_data doc acc)
                 documents acc in
             session.2 = acc.2 ++ repeat "other" (List.length documents)
             ∧ Forall (λ entry, entry = ("other", mkDoc (Some ∅))) session.1).
  { induction P as [|doc documents M _ IH]; intros acc F; cbn zeta.
    - simpl. now rewrite app_nil_r.
    - cbn [fold_left]. rewrite (process_pdf doc acc M).
      destruct (IH (match validate_data ∅ "other" with
                    | Ok _ => setitem "other" (mkDoc (Some ∅)) acc.1
                    | Raise _ => acc.1
                    end, acc.2 ++ [ "other" ])) as [I1 I2].
      + cbn [fst]. destruct (validate_data ∅ "other"); [|exact F].
        now apply setitem_Forall.
      + split; [|exact I2]. rewrite I1. cbn [snd].
        now rewrite <- app_assoc. }
  destruct (G ([], [])) as [G1 G2]; [constructor|].
  unfold process_documents. split; [exact G1|]. split; [exact G2|].
  revert G2. generalize (fold_left
    (λ acc doc, process_document extract_text validate_data doc acc)
    documents ([], [])).1.
  intros ed F. induction F as [|entry ed -> _ [IH1 IH2]]; [split; reflexivity|].
  split; [exact IH1 | exact IH2].
Qed.

End Pipeline.

(* ================================================================== *)
(** * The rules of the benefits screening *)
(* ================================================================== *)

Section BenefitRules.

(** X22: the food assistance limit of a household of more than eight is the
    limit of a household of eight.  The household size is capped at 8 before
    the table is read, so for a filer with seven dependents or more the
    monthly income is compared with 5292 and the amount per further person
    is never added; with more dependents, or with a lower income, a filer
    who passes the check still passes it. *)
Theorem X22_snap_limit_capped_at_household_of_eight
    (income : Q) (dependents : Z) (zip_code : string) :
  (7 <= dependents)%Z →
  _check_snap_eligibility income dependents zip_code
  = Qle_bool (income / 12) 5292
  ∧ ∀ income' dependents' zip_code',
      income' <= income → (0 <= dependents' <= dependents)%Z →
      _check_snap_eligibility income dependents' zip_code' = true →
      _check_snap_eligibility income' dependents zip_code = true.
Proof.
  intros D.
  assert (E : _check_snap_eligibility income dependents zip_code
              = Qle_bool (income / 12) 5292).
  { unfold _check_snap_eligibility. cbn zeta.
    replace (Z.min (dependents + 1) 8) with 8%Z by lia. reflexivity. }
  split; [exact E|].
  intros income' d' z' Li [D0 Dd] H.
  assert (E' : _check_snap_eligibility income' dependents zip_code
               = Qle_bool (income' / 12) 5292).
  { unfold _check_snap_eligibility. cbn zeta.
    replace (Z.min (dependents + 1) 8) with 8%Z by lia. reflexivity. }
  rewrite E'. apply Qle_bool_iff.
  unfold _check_snap_eligibility in H. cbn zeta in H.
  apply Qle_bool_iff in H.
  assert (L : get_int
                [ (1%Z, 1526); (2%Z, 2064); (3%Z, 2602); (4%Z, 3140);
                  (5%Z, 3678); (6%Z, 4216); (7%Z, 4754); (8%Z, 5292) ]
                (Z.min (d' + 1) 8) (inject_Z (5292 + (d' + 1 - 8) * 448))
              <= 5292).
  { assert (C : (d' = 0 ∨ d' = 1 ∨ d' = 2 ∨ d' = 3 ∨ d' = 4 ∨ d' = 5 ∨ d' = 6
                 ∨ 7 <= d')%Z) by lia.
    destruct C as [->|[->|[->|[->|[->|[->|[->|C]]]]]]];
      try (vm_compute; discriminate).
    replace (Z.min (d' + 1) 8) with 8%Z by lia. vm_compute. discriminate. }
  assert (income' / 12 <= income / 12).
  { unfold Qdiv. apply Qmult_le_compat_r; [exact Li|]. vm_compute. discriminate. }
  lra.
Qed.

Lemma inject_Z_mult_400 (d : Z) : inject_Z (d * 400) == inject_Z d * 400.
Proof. unfold Qeq, inject_Z, Qmult. simpl. lia. Qed.

(** X23: the EITC estimate is never negative and never above 400 per
    dependent; it does not grow with the income; and for a filer without
    dependents it is 0, whatever the income. *)
Theorem X23_eitc_estimate_bounds (income : Q) (dependents : Z) :
  (0 <= dependents)%Z →
  0 <= _estimate_eitc income dependents
  ∧ _estimate_eitc income dependents <= inject_Z (dependents * 400)
  ∧ (∀ income', income <= income' →
       _estimate_eitc income' dependents <= _estimate_eitc income dependents)
  ∧ (dependents = 0%Z → _estimate_eitc income dependents == 0).
Proof.
  intros D.
  assert (B : 0 <= inject_Z (dependents * 400)).
  { unfold Qle, inject_Z. simpl. lia. }
  assert (U : ∀ x, _estimate_eitc x dependents <= inject_Z (dependents * 400)
                   ∧ 0 <= _estimate_eitc x dependents).
  { intros x. unfold _estimate_eitc. cbn zeta.
    destruct (Qlt_le_dec _ x) as [Lt|Ge]; [|split; lra].
    assert (0 <= (x - inject_Z (9000 + dependents * 1000)) * 0.0765).
    { apply Qmult_le_0_compat; [lra | vm_compute; discriminate]. }
    split; [apply Q.max_lub; lra | apply Q.le_max_l]. }
  split; [apply U|]. split; [apply U|]. split.
  - intros income' L. unfold _estimate_eitc. cbn zeta.
    set (s := inject_Z (9000 + dependents * 1000)).
    set (b := inject_Z (dependents * 400)) in *.
    destruct (Qlt_le_dec s income') as [Lt'|Ge'];
      destruct (Qlt_le_dec s income) as [Lt|Ge]; try lra.
    + apply Q.max_le_compat_l.
      assert ((income - s) * 0.0765 <= (income' - s) * 0.0765).
      { apply Qmult_le_compat_r; [lra | vm_compute; discriminate]. }
      lra.
    + assert (0 <= (income' - s) * 0.0765).
      { apply Qmult_le_0_compat; [lra | vm_compute; discriminate]. }
      apply Q.max_lub; lra.
  - intros ->. destruct (U income) as [U1 U2].
    change (inject_Z (0 * 400)) with 0 in U1. lra.
Qed.

End BenefitRules.

Lemma X22_snap_limit_capped_at_household_of_eight_witness :
  _check_snap_eligibility 60000 12 "94110" = Qle_bool (60000 / 12) 5292.
Proof.
  apply (X22_snap_limit_capped_at_household_of_eight 60000 12 "94110"). lia.
Defined.

Lemma X23_eitc_estimate_bounds_witness :
  _estimate_eitc 20000 2 <= inject_Z (2 * 400).
Proof.
  apply (X23_eitc_estimate_bounds 20000 2). lia.
Defined.

(* ================================================================== *)
(** * Runs on sample inputs *)
(* ================================================================== *)



Lemma X7_amounts_are_assigned_by_position_witness :
  extract_data w2_text_without_ssn "w2" !! "wages_tips_other_comp"
  = VNum <$> extract_currency_values w2_text_without_ssn !! 0%nat.
Proof.
  destruct (X7_amounts_are_assigned_by_position w2_text_without_ssn)
    as [Boxes _].
  apply (Boxes 0%nat). reflexivity.
Defined.

Lemma X18_one_record_per_type_last_document_wins_witness :
  assoc "w2"
    (process_documents bytes_as_text validator_passes
       [ first_w2_image; second_w2_image ]).1
  = Some (mkDoc (Some (extract_data (file_bytes second_w2_image) "w2"))).
Proof.
  apply (X18_one_record_per_type_last_document_wins bytes_as_text
           validator_passes [ first_w2_image ] second_w2_image
           (file_bytes second_w2_image) "w2").
  - reflexivity.
  - vm_compute. reflexivity.
  - eexists. reflexivity.
Defined.


Lemma X21_pdf_documents_are_read_as_empty_witness :
  (process_documents bytes_as_text validator_passes [ w2_pdf; w2_pdf ]).2
  = [ "other"; "other" ].
Proof.
  apply (X21_pdf_documents_are_read_as_empty bytes_as_text validator_passes
           [ w2_pdf; w2_pdf ]).
  repeat constructor.
Defined.
